(** * Link classification and broken-link verification of the /analyze handler

    A shallow embedding of the link part of the Express handler
    [app.get('/analyze', ...)]: the anchor traversal that fills [allLinks],
    [internalLinks], [externalDofollowLinks] and [externalNofollowLinks], the
    de-duplication through a JavaScript [Set], the per-link promise chain
    [axios.get(...).then(...).catch(...)], the [Promise.allSettled] join, the
    [forEach] that fills [brokenLinks], and the two counters of the scoring
    step.

    The libraries the handler calls (Node's [url] module, axios, cheerio) are
    not part of the repository.  Node's [url] module is an interface
    ([UrlParser]) with one documented instance ([NodeUrl]); an axios request
    is a reply of the outside world ([NetReply]) to which axios applies the
    handler's own [validateStatus]. *)

From Stdlib Require Import String Ascii List ZArith Bool Arith Lia.
From Stdlib Require Import DecimalString Permutation.
Import ListNotations.

Open Scope string_scope.
Open Scope list_scope.

(** ** JavaScript values *)

Module Js.

(** Truthiness of a value that is a string or [undefined]/[null]: the empty
    string, [undefined] and [null] are falsy. *)
Definition truthy (v : option string) : bool :=
  match v with
  | Some s => negb (s =? "")
  | None => false
  end.

(** [v || d] with a string literal [d]. *)
Definition or_default (v : option string) (d : string) : string :=
  match v with
  | Some s => if s =? "" then d else s
  | None => d
  end.

(** [a || b] where both sides are strings or [undefined]. *)
Definition or_else (a b : option string) : option string :=
  if truthy a then a else b.

(** [a === b] on values that are strings or [null]. *)
Definition strict_eq (a b : option string) : bool :=
  match a, b with
  | Some x, Some y => x =? y
  | None, None => true
  | _, _ => false
  end.

(** A template-literal hole [${v}]: an absent value prints as the name of
    its absence ([null] for the fields of a parsed URL, [undefined] for a
    missing property). *)
Definition template (absent : string) (v : option string) : string :=
  match v with
  | Some s => s
  | None => absent
  end.

(** [s.includes(sub)]: [sub] occurs in [s] at some position, compared code
    unit by code unit (so case-sensitively). *)
Fixpoint includes (s sub : string) : bool :=
  String.prefix sub s
  || match s with
     | EmptyString => false
     | String _ s' => includes s' sub
     end.

(** [arr.push(x)]. *)
Definition push {A : Type} (arr : list A) (x : A) : list A := arr ++ [x].

(** Insertion into a [Set] of strings, kept in insertion order: a value
    already present is not added again. *)
Definition set_add (seen : list string) (x : string) : list string :=
  if existsb (String.eqb x) seen then seen else seen ++ [x].

(** [[...new Set(arr)]]. *)
Definition set_of_array (arr : list string) : list string :=
  fold_left set_add arr [].

End Js.

(** ** Node's [url] module, as the handler uses it *)

(** The two fields of [url.parse(...)] the handler reads; a field Node leaves
    out is [null]. *)
Record UrlObject : Type := mkUrlObject {
  protocol : option string;
  host : option string
}.

(** [urlParser.resolve(from, to)] and [urlParser.parse(s)].  [None] stands for
    a thrown exception. *)
Class UrlParser : Type := {
  resolve : string -> string -> option string;
  parse : string -> option UrlObject
}.

(** ** Anchor traversal *)

(** An [<a>] element: [$(el).attr('href')] and [$(el).attr('rel')], each
    [undefined] when the attribute is missing. *)
Record Anchor : Type := mkAnchor {
  href : option string;
  rel : option string
}.

(** The four arrays the traversal fills. *)
Record LinkLists : Type := mkLinkLists {
  allLinks : list string;
  internalLinks : list string;
  externalDofollowLinks : list string;
  externalNofollowLinks : list string
}.

Definition noLinks : LinkLists := mkLinkLists [] [] [] [].

(** [const baseUrl = `${parsedUrl.protocol}//${parsedUrl.host}`]. *)
Definition baseUrl (parsedUrl : UrlObject) : string :=
  (Js.template "null" (protocol parsedUrl) ++ "//" ++ Js.template "null" (host parsedUrl))%string.

(** The test of the first [if] in the callback: same protocol and same host. *)
Definition sameOrigin (parsedHref parsedUrl : UrlObject) : bool :=
  Js.strict_eq (protocol parsedHref) (protocol parsedUrl)
  && Js.strict_eq (host parsedHref) (host parsedUrl).

(** The test of the inner [if]. *)
Definition relUnfollowed (rel : string) : bool :=
  Js.includes rel "nofollow" || Js.includes rel "ugc" || Js.includes rel "sponsored".

(** The three destinations of a classified link. *)
Inductive LinkClass : Type :=
| Internal
| ExternalDofollow
| ExternalNofollow.

Definition classify (parsedHref parsedUrl : UrlObject) (rel : string) : LinkClass :=
  if sameOrigin parsedHref parsedUrl then Internal
  else if relUnfollowed rel then ExternalNofollow
  else ExternalDofollow.

Definition pushClassified (st : LinkLists) (c : LinkClass) (absoluteHref : string) : LinkLists :=
  match c with
  | Internal =>
      mkLinkLists (allLinks st) (Js.push (internalLinks st) absoluteHref)
                  (externalDofollowLinks st) (externalNofollowLinks st)
  | ExternalDofollow =>
      mkLinkLists (allLinks st) (internalLinks st)
                  (Js.push (externalDofollowLinks st) absoluteHref) (externalNofollowLinks st)
  | ExternalNofollow =>
      mkLinkLists (allLinks st) (internalLinks st)
                  (externalDofollowLinks st) (Js.push (externalNofollowLinks st) absoluteHref)
  end.

Definition pushAll (st : LinkLists) (absoluteHref : string) : LinkLists :=
  mkLinkLists (Js.push (allLinks st) absoluteHref) (internalLinks st)
              (externalDofollowLinks st) (externalNofollowLinks st).

(** The body of [$('a').each((i, el) => ...)] for one element.  The guard
    [if (href)] fails for [undefined] and for the empty string.  A throwing
    [resolve] leaves the arrays as they are; a throwing [parse] happens after
    [allLinks.push], so the link stays in [allLinks] only.  The [catch] block
    only writes a console warning. *)
Definition eachAnchor `{UrlParser} (parsedUrl : UrlObject) (st : LinkLists) (el : Anchor)
  : LinkLists :=
  match href el with
  | None => st
  | Some rawHref =>
      if rawHref =? "" then st
      else
        match resolve (baseUrl parsedUrl) rawHref with
        | None => st
        | Some absoluteHref =>
            let st1 := pushAll st absoluteHref in
            match parse absoluteHref with
            | None => st1
            | Some parsedHref =>
                let rel := Js.or_default (rel el) "" in
                pushClassified st1 (classify parsedHref parsedUrl rel) absoluteHref
            end
        end
  end.

(** The whole traversal, in document order. *)
Definition collectLinks `{UrlParser} (parsedUrl : UrlObject) (anchors : list Anchor)
  : LinkLists :=
  fold_left (eachAnchor parsedUrl) anchors noLinks.

(** [const uniqueLinksToCheck = [...new Set(allLinks)]]. *)
Definition uniqueLinksToCheck (allLinks : list string) : list string :=
  Js.set_of_array allLinks.

(** ** The per-link check *)

(** [status] of a broken-link record: the handler stores either the numeric
    HTTP status or a text label. *)
Inductive StatusDetail : Type :=
| StatusCode (n : Z)
| StatusText (s : string).

(** The object literal [{ url: link, status: ..., type: ... }]. *)
Record BrokenLink : Type := mkBrokenLink {
  url : string;
  status : StatusDetail;
  type : string
}.

(** An HTTP response as the handlers see it: they read [response.status]
    only. *)
Record Response : Type := mkResponse {
  statusCode : Z
}.

(** A value a rejected request carries.  [axios.isAxiosError(error)] is the
    tag; below it the handler reads [error.response], [error.request],
    [error.code] and [error.message], and of any other error only
    [error.message]. *)
Inductive JsError : Type :=
| AxiosError (response : option Response) (request : bool)
             (code : option string) (message : option string)
| OtherError (message : option string).

Definition isAxiosError (error : JsError) : bool :=
  match error with
  | AxiosError _ _ _ _ => true
  | OtherError _ => false
  end.

(** A settled promise, as [Promise.allSettled] reports it. *)
Inductive Settled (A : Type) : Type :=
| Fulfilled (value : A)
| Rejected (reason : JsError).

Arguments Fulfilled {A} value.
Arguments Rejected {A} reason.

(** [p.then(f)] and [p.catch(h)] for handlers that return normally. *)
Definition then_ {A B : Type} (p : Settled A) (f : A -> B) : Settled B :=
  match p with
  | Fulfilled v => Fulfilled (f v)
  | Rejected e => Rejected e
  end.

Definition catch_ {A : Type} (p : Settled A) (h : JsError -> A) : Settled A :=
  match p with
  | Fulfilled v => Fulfilled v
  | Rejected e => Fulfilled (h e)
  end.

(** What the outside world answers to one request issued with the options of
    the handler: either the exchange ends with a final response (redirects
    already followed, within the timeout and the content-length cap), or it
    ends with a final response whose body is longer than the 2000 bytes of
    [maxContentLength], or the transport fails and axios rejects with an
    error of its own making. *)
Inductive NetReply : Type :=
| Completed (r : Response)
| Oversized (r : Response)
| Faulted (e : JsError).

(** The [validateStatus] option of the request. *)
Definition validateStatus (status : Z) : bool :=
  (200 <=? status)%Z && (status <? 500)%Z.

Definition string_of_Z (z : Z) : string :=
  NilEmpty.string_of_int (Z.to_int z).

(** axios settles a completed exchange with [validateStatus]: the promise
    resolves with the response when the status is accepted (or is 0), and
    otherwise rejects with an AxiosError that carries the request and the
    response.  A body longer than [maxContentLength] is no truncation: while
    reading it axios destroys the stream and rejects, before any status is
    validated, with an AxiosError that carries the request, no response and
    the code ERR_BAD_RESPONSE. *)
Definition axios_get (reply : NetReply) : Settled Response :=
  match reply with
  | Completed r =>
      if (statusCode r =? 0)%Z || validateStatus (statusCode r) then Fulfilled r
      else Rejected
             (AxiosError (Some r) true
                (if (statusCode r / 100 =? 4)%Z then Some "ERR_BAD_REQUEST"
                 else if (statusCode r / 100 =? 5)%Z then Some "ERR_BAD_RESPONSE"
                 else None)
                (Some ("Request failed with status code " ++ string_of_Z (statusCode r))%string))
  | Oversized _ =>
      Rejected
        (AxiosError None true (Some "ERR_BAD_RESPONSE")
           (Some "maxContentLength size of 2000 exceeded"))
  | Faulted e => Rejected e
  end.

(** The [.then(response => ...)] handler; [None] is the returned [null]. *)
Definition thenHandler (link : string) (response : Response) : option BrokenLink :=
  if (400 <=? statusCode response)%Z && (statusCode response <? 500)%Z then
    Some (mkBrokenLink link (StatusCode (statusCode response)) "Client Error")
  else None.

Definition codeIs (code : option string) (name : string) : bool :=
  Js.strict_eq code (Some name).

(** The [.catch(error => ...)] handler.  The pair is
    ([statusDetail], [errorType]); both start from their defaults
    ['Unreachable'] and ['Network Issue'].  The outer match is the test
    [axios.isAxiosError(error)]; below it come [if (error.response)],
    [else if (error.request)] and the final [else]. *)
Definition catchDetail (error : JsError) : StatusDetail * string :=
  match error with
  | AxiosError (Some response) _ _ _ =>
      (StatusCode (statusCode response),
       if (500 <=? statusCode response)%Z then "Server Error"
       else if (400 <=? statusCode response)%Z && (statusCode response <? 500)%Z
            then "Client Error"
            else "Network Issue")
  | AxiosError None true code message =>
      if codeIs code "ECONNABORTED" || codeIs code "ETIMEDOUT" then
        (StatusText "Timeout", "Network Issue")
      else if codeIs code "ENOTFOUND" then
        (StatusText "DNS Resolution Failed", "Network Issue")
      else if codeIs code "ECONNREFUSED" then
        (StatusText "Connection Refused", "Network Issue")
      else if codeIs code "ERR_NETWORK" then
        (StatusText "Generic Network Error", "Network Issue")
      else
        (StatusText ("Axios Request Error: "
                     ++ Js.template "undefined" (Js.or_else code message))%string,
         "Network Issue")
  | AxiosError None false _ message =>
      (StatusText (Js.or_default message "Axios Setup Error"), "Unknown Axios Error")
  | OtherError message =>
      (StatusText (Js.or_default message "Unknown Error"), "Non-Axios Error")
  end.

Definition catchHandler (link : string) (error : JsError) : option BrokenLink :=
  let '(statusDetail, errorType) := catchDetail error in
  Some (mkBrokenLink link statusDetail errorType).

(** The promise built for one link by the callback of
    [uniqueLinksToCheck.map], once the world has answered. *)
Definition linkCheck (link : string) (reply : NetReply) : Settled (option BrokenLink) :=
  catch_ (then_ (axios_get reply) (thenHandler link)) (catchHandler link).

(** ** The join: [Promise.allSettled] *)

(** A promise of the array [linkCheckPromises]. *)
Inductive PromiseState : Type :=
| Pending
| Done (result : Settled (option BrokenLink)).

(** The promises in flight, each with the link its closure captured. *)
Definition Pool : Type := list (string * PromiseState).

(** [uniqueLinksToCheck.map(link => axios.get(link, ...)...)]: one request is
    issued per element, and all of them are pending when [map] returns. *)
Definition launch (links : list string) : Pool :=
  map (fun link => (link, Pending)) links.

(** The requests that were issued. *)
Definition requestsIssued (pool : Pool) : list string := map fst pool.

(** One turn of the event loop: the answer to the request at position [i]
    arrives.  A pending promise settles with the value of its chain; a
    promise that has settled keeps its value. *)
Fixpoint settleAt (net : string -> NetReply) (i : nat) (pool : Pool) {struct pool} : Pool :=
  match pool with
  | [] => []
  | (link, st) :: rest =>
      match i with
      | O =>
          match st with
          | Pending => (link, Done (linkCheck link (net link))) :: rest
          | Done _ => (link, st) :: rest
          end
      | S j => (link, st) :: settleAt net j rest
      end
  end.

(** The answers arrive in any order, one per turn. *)
Definition eventLoop (net : string -> NetReply) (arrivals : list nat) (pool : Pool) : Pool :=
  fold_left (fun p i => settleAt net i p) arrivals pool.

(** The positions whose answer has arrived. *)
Definition arrived (arrivals : list nat) (i : nat) : bool :=
  existsb (Nat.eqb i) arrivals.

(** A pool in closed form: the promise of the link at position [k], [k + 1],
    ... is settled with the value of its chain where [settled] holds, and
    pending elsewhere. *)
Fixpoint poolWith (net : string -> NetReply) (settled : nat -> bool) (k : nat)
         (links : list string) : Pool :=
  match links with
  | [] => []
  | link :: rest =>
      (link, if settled k then Done (linkCheck link (net link)) else Pending)
      :: poolWith net settled (S k) rest
  end.

Definition pendingCount (pool : Pool) : nat :=
  length (filter (fun p => match snd p with Pending => true | Done _ => false end) pool).

(** [await Promise.allSettled(linkCheckPromises)]: the awaited promise
    resolves, with the results in array order, when no element is pending;
    until then the handler stays suspended ([None]). *)
Fixpoint allSettled (pool : Pool) : option (list (Settled (option BrokenLink))) :=
  match pool with
  | [] => Some []
  | (_, Pending) :: _ => None
  | (_, Done r) :: rest =>
      match allSettled rest with
      | Some rs => Some (r :: rs)
      | None => None
      end
  end.

(** ** Filling [brokenLinks] *)

(** An element of [brokenLinks]: a record a handler returned, or the reason of
    a rejected promise pushed as it is. *)
Inductive Entry : Type :=
| Record_ (b : BrokenLink)
| Reason (e : JsError).

(** The callback of [linkCheckResults.forEach]. *)
Definition pushResult (brokenLinks : list Entry) (result : Settled (option BrokenLink))
  : list Entry :=
  match result with
  | Fulfilled (Some value) => Js.push brokenLinks (Record_ value)
  | Fulfilled None => brokenLinks
  | Rejected reason => Js.push brokenLinks (Reason reason)
  end.

Definition collectBroken (linkCheckResults : list (Settled (option BrokenLink)))
  : list Entry :=
  fold_left pushResult linkCheckResults [].

(** The results of the join when every request has been answered: the
    function the event loop computes, whatever the order of the answers. *)
Definition linkCheckResults (net : string -> NetReply) (links : list string)
  : list (Settled (option BrokenLink)) :=
  map (fun link => linkCheck link (net link)) links.

(** The verification phase from [allLinks] to [brokenLinks]. *)
Definition verifyLinks (net : string -> NetReply) (allLinks : list string) : list Entry :=
  collectBroken (linkCheckResults net (uniqueLinksToCheck allLinks)).

(** ** The counters of the scoring step *)

(** [link.type] of an element of [brokenLinks]; a pushed reason has no such
    property. *)
Definition entryType (link : Entry) : option string :=
  match link with
  | Record_ b => Some (type b)
  | Reason _ => None
  end.

Definition entryUrl (link : Entry) : option string :=
  match link with
  | Record_ b => Some (url b)
  | Reason _ => None
  end.

Definition typeIs (link : Entry) (name : string) : bool :=
  Js.strict_eq (entryType link) (Some name).

Definition confirmedBrokenLinksCount (brokenLinks : list Entry) : nat :=
  length (filter (fun link => typeIs link "Client Error" || typeIs link "Server Error")
                 brokenLinks).

Definition networkIssueLinksCount (brokenLinks : list Entry) : nat :=
  length (filter (fun link => typeIs link "Network Issue" || typeIs link "Connection Problem")
                 brokenLinks).

(** ** The taxonomy of the specification *)

(** The names the specification gives to the outcome categories. *)
Inductive Category : Type :=
| Reachable
| ClientError
| ServerError
| NetworkIssue
| RequestSetupError
| UnknownError.

(** The category a [type] string of the handler stands for.  The handler
    writes five strings; any other string names no category. *)
Definition categoryOfType (type : string) : option Category :=
  if type =? "Client Error" then Some ClientError
  else if type =? "Server Error" then Some ServerError
  else if type =? "Network Issue" then Some NetworkIssue
  else if type =? "Unknown Axios Error" then Some RequestSetupError
  else if type =? "Non-Axios Error" then Some UnknownError
  else None.

(** The [type] strings the two handlers write. *)
Definition handlerTypes : list string :=
  ["Client Error"; "Server Error"; "Network Issue"; "Unknown Axios Error"; "Non-Axios Error"].

(** The category of what the chain of one link returns: [null] is a reachable
    link. *)
Definition outcomeCategory (value : option BrokenLink) : option Category :=
  match value with
  | None => Some Reachable
  | Some b => categoryOfType (type b)
  end.

Definition entryCategory (link : Entry) : option Category :=
  match link with
  | Record_ b => categoryOfType (type b)
  | Reason _ => None
  end.

Definition isConfirmedBroken (c : option Category) : bool :=
  match c with
  | Some ClientError | Some ServerError => true
  | _ => false
  end.

Definition isNetworkIssue (c : option Category) : bool :=
  match c with
  | Some NetworkIssue => true
  | _ => false
  end.

(** The specification's wording of the follow policy: the [rel] attribute is
    present and one of the three words occurs in it. *)
Definition occursIn (word s : string) : Prop :=
  exists before after : string, s = (before ++ word ++ after)%string.

Definition relMarksUnfollowed (rel : option string) : Prop :=
  exists v, rel = Some v
            /\ (occursIn "nofollow" v \/ occursIn "ugc" v \/ occursIn "sponsored" v).

(** ** Node's legacy [url] module on scheme-and-authority URLs *)

(** A model of [url.parse] and [url.resolve] for the URLs of the scenarios:
    strings of the shape [scheme://authority] followed by a path, a query or
    a fragment, without user information.  As Node documents it, [protocol]
    is the lower-cased scheme with its colon, and [host] is the lower-cased
    host portion of the URL, including the port if one is written.  A
    reference is resolved against a base that has no path, which is what
    [baseUrl] always is; dot segments are not removed and the spelling of an
    absolute reference is kept. *)
Module NodeUrl.

Definition between (lo hi : nat) (c : ascii) : bool :=
  (lo <=? nat_of_ascii c)%nat && (nat_of_ascii c <=? hi)%nat.

Definition is_upper (c : ascii) : bool := between 65 90 c.

(** The characters of [/^[a-z0-9.+-]+:/i] before the colon. *)
Definition is_scheme_char (c : ascii) : bool :=
  between 97 122 c || is_upper c || between 48 57 c
  || (c =? ".")%char || (c =? "+")%char || (c =? "-")%char.

Definition lower_char (c : ascii) : ascii :=
  if is_upper c then ascii_of_nat (nat_of_ascii c + 32) else c.

Fixpoint toLowerCase (s : string) : string :=
  match s with
  | EmptyString => EmptyString
  | String c s' => String (lower_char c) (toLowerCase s')
  end.

(** The run of scheme characters up to the first colon, and what follows
    the colon. *)
Fixpoint scheme_split (s : string) : option (string * string) :=
  match s with
  | EmptyString => None
  | String c s' =>
      if (c =? ":")%char then Some (EmptyString, s')
      else if is_scheme_char c then
        match scheme_split s' with
        | Some (p, r) => Some (String c p, r)
        | None => None
        end
      else None
  end.

Definition protocol_split (s : string) : option (string * string) :=
  match scheme_split s with
  | Some (p, r) => if p =? "" then None else Some ((toLowerCase p ++ ":")%string, r)
  | None => None
  end.

(** The characters that end the host: [/], [?] and [#]. *)
Definition is_host_end (c : ascii) : bool :=
  (c =? "/")%char || (c =? "?")%char || (c =? "#")%char.

Fixpoint take_host (s : string) : string :=
  match s with
  | EmptyString => EmptyString
  | String c s' => if is_host_end c then EmptyString else String c (take_host s')
  end.

Definition after_slashes (s : string) : option string :=
  match s with
  | String "/" (String "/" r) => Some r
  | _ => None
  end.

Fixpoint string_forallb (f : ascii -> bool) (s : string) : bool :=
  match s with
  | EmptyString => true
  | String c s' => f c && string_forallb f s'
  end.

Definition is_digit (c : ascii) : bool := between 48 57 c.

(** The characters of a host name: letters, digits, dots and hyphens. *)
Definition is_hostname_char (c : ascii) : bool :=
  between 97 122 c || is_upper c || is_digit c || (c =? ".")%char || (c =? "-")%char.

Definition node_parse (s : string) : option UrlObject :=
  match protocol_split s with
  | Some (proto, rest) =>
      match after_slashes rest with
      | Some r => Some (mkUrlObject (Some proto) (Some (toLowerCase (take_host r))))
      | None => Some (mkUrlObject (Some proto) None)
      end
  | None => Some (mkUrlObject None None)
  end.

Definition node_resolve (from to : string) : option string :=
  match protocol_split to with
  | Some _ => Some to
  | None =>
      match node_parse from with
      | Some base =>
          let proto := Js.template "" (protocol base) in
          let origin := (proto ++ "//" ++ Js.template "" (host base))%string in
          if String.prefix "//" to then Some (proto ++ to)%string
          else if String.prefix "/" to then Some (origin ++ to)%string
          else Some (origin ++ "/" ++ to)%string
      | None => None
      end
  end.

End NodeUrl.

#[export] Instance nodeUrl : UrlParser := {|
  resolve := NodeUrl.node_resolve;
  parse := NodeUrl.node_parse
|}.

(** The analysed page's own [urlParser.parse(url)] under the Node model. *)
Definition parsedUrlOf (url : string) : UrlObject :=
  match NodeUrl.node_parse url with
  | Some u => u
  | None => mkUrlObject None None
  end.

(** ** JavaScript strings: length, white space, [trim], [split] *)

(** The strings of the model hold the UTF-8 encoding of the JavaScript
    string.  [length] counts UTF-16 code units and white space is a matter
    of code points, so both are read through the encoding. *)
Module JsString.

Definition isContinuation (b : nat) : bool := (128 <=? b)%nat && (b <? 192)%nat.

(** The UTF-16 code units of the code point a byte starts, and the
    continuation bytes that belong to it.  A byte that starts nothing decodes
    to one replacement character. *)
Definition unitsOfLead (b : nat) : nat :=
  if (240 <=? b)%nat && (b <? 248)%nat then 2 else 1.

Definition continuationsOfLead (b : nat) : nat :=
  if (b <? 192)%nat then 0
  else if (b <? 224)%nat then 1
  else if (b <? 240)%nat then 2
  else if (b <? 248)%nat then 3
  else 0.

Fixpoint unitsFrom (pending : nat) (s : string) : nat :=
  match s with
  | EmptyString => 0
  | String c r =>
      let b := nat_of_ascii c in
      match pending with
      | S p =>
          if isContinuation b then unitsFrom p r
          else unitsOfLead b + unitsFrom (continuationsOfLead b) r
      | O => unitsOfLead b + unitsFrom (continuationsOfLead b) r
      end
  end.

(** [s.length]. *)
Definition jsLength (s : string) : nat := unitsFrom 0 s.

(** White space and line terminators of one byte: TAB, LF, VT, FF, CR and
    the space. *)
Definition isWs1 (c : ascii) : bool :=
  let b := nat_of_ascii c in
  ((9 <=? b)%nat && (b <=? 13)%nat) || (b =? 32)%nat.

(** U+00A0. *)
Definition isWs2 (c1 c2 : ascii) : bool :=
  (nat_of_ascii c1 =? 194)%nat && (nat_of_ascii c2 =? 160)%nat.

(** U+1680, U+2000 to U+200A, U+2028, U+2029, U+202F, U+205F, U+3000 and
    U+FEFF. *)
Definition isWs3 (c1 c2 c3 : ascii) : bool :=
  let b1 := nat_of_ascii c1 in
  let b2 := nat_of_ascii c2 in
  let b3 := nat_of_ascii c3 in
  ((b1 =? 225)%nat && (b2 =? 154)%nat && (b3 =? 128)%nat)
  || ((b1 =? 226)%nat && (b2 =? 128)%nat
      && (((128 <=? b3)%nat && (b3 <=? 138)%nat)
          || (b3 =? 168)%nat || (b3 =? 169)%nat || (b3 =? 175)%nat))
  || ((b1 =? 226)%nat && (b2 =? 129)%nat && (b3 =? 159)%nat)
  || ((b1 =? 227)%nat && (b2 =? 128)%nat && (b3 =? 128)%nat)
  || ((b1 =? 239)%nat && (b2 =? 187)%nat && (b3 =? 191)%nat).

(** [s.trimStart()]. *)
Fixpoint trimStart (s : string) : string :=
  match s with
  | EmptyString => EmptyString
  | String c1 r1 =>
      if isWs1 c1 then trimStart r1
      else
        match r1 with
        | EmptyString => s
        | String c2 r2 =>
            if isWs2 c1 c2 then trimStart r2
            else
              match r2 with
              | EmptyString => s
              | String c3 r3 => if isWs3 c1 c2 c3 then trimStart r3 else s
              end
        end
  end.

Fixpoint reverseOnto (s acc : string) : string :=
  match s with
  | EmptyString => acc
  | String c r => reverseOnto r (String c acc)
  end.

Definition reverse (s : string) : string := reverseOnto s EmptyString.

(** [trimStart] on the reversed string: the bytes of a code point come last
    byte first. *)
Fixpoint trimStartReversed (s : string) : string :=
  match s with
  | EmptyString => EmptyString
  | String c1 r1 =>
      if isWs1 c1 then trimStartReversed r1
      else
        match r1 with
        | EmptyString => s
        | String c2 r2 =>
            if isWs2 c2 c1 then trimStartReversed r2
            else
              match r2 with
              | EmptyString => s
              | String c3 r3 => if isWs3 c3 c2 c1 then trimStartReversed r3 else s
              end
        end
  end.

(** [s.trimEnd()] and [s.trim()]. *)
Definition trimEnd (s : string) : string := reverse (trimStartReversed (reverse s)).

Definition trim (s : string) : string := trimEnd (trimStart s).

(** [s.split('\n')]. *)
Fixpoint splitLines (s : string) : list string :=
  match s with
  | EmptyString => [EmptyString]
  | String c r =>
      if (nat_of_ascii c =? 10)%nat then EmptyString :: splitLines r
      else
        match splitLines r with
        | piece :: pieces => String c piece :: pieces
        | [] => [String c EmptyString]
        end
  end.

End JsString.

(** ** Title, description and headings *)

(** What the queries on the document head return: [$('title').text()] and
    the [content] attribute of the four [meta] selectors, in the order of the
    [||] chain. *)
Record Head : Type := mkHead {
  titleText : string;
  metaNameDescription : option string;
  metaNameDescriptionCapital : option string;
  metaPropertyOgDescription : option string;
  metaNameOgDescription : option string
}.

(** [const title = $('title').text() || 'No title']. *)
Definition titleOf (head : Head) : string :=
  Js.or_default (Some (titleText head)) "No title".

(** [let metaDescription = ... || ... || ... || ... || 'No description']. *)
Definition metaDescriptionOf (head : Head) : string :=
  Js.or_default
    (Js.or_else (metaNameDescription head)
       (Js.or_else (metaNameDescriptionCapital head)
          (Js.or_else (metaPropertyOgDescription head) (metaNameOgDescription head))))
    "No description".

(** [$('h1').each((i, el) => h1Tags.push($(el).text().trim()))], from the
    texts of the [h1] elements. *)
Definition h1TagsOf (h1Texts : list string) : list string :=
  fold_left (fun h1Tags text => Js.push h1Tags (JsString.trim text)) h1Texts [].

(** ** Images *)

(** An [<img>] element: [$(el).attr('src')] and [$(el).attr('alt')]. *)
Record Img : Type := mkImg {
  imgSrc : option string;
  imgAlt : option string
}.

(** The object literal [{ src, alt: alt || '', hasAlt }]. *)
Record ImageEntry : Type := mkImageEntry {
  src : string;
  alt : string;
  hasAlt : bool
}.

Record ImageStats : Type := mkImageStats {
  imagesWithAlt : nat;
  imagesWithoutAlt : nat;
  imageData : list ImageEntry
}.

Definition noImages : ImageStats := mkImageStats 0 0 [].

(** [alt !== undefined && alt !== null && alt.trim() !== '']. *)
Definition hasAltOf (alt : option string) : bool :=
  match alt with
  | Some a => negb (JsString.trim a =? "")
  | None => false
  end.

(** The body of [$('img').each((i, el) => ...)]. *)
Definition eachImg (st : ImageStats) (el : Img) : ImageStats :=
  let hasAlt := hasAltOf (imgAlt el) in
  let withAlt := if hasAlt then S (imagesWithAlt st) else imagesWithAlt st in
  let withoutAlt := if hasAlt then imagesWithoutAlt st else S (imagesWithoutAlt st) in
  let data :=
    if Js.truthy (imgSrc el) then
      Js.push (imageData st)
        (mkImageEntry (Js.template "" (imgSrc el)) (Js.or_default (imgAlt el) "") hasAlt)
    else imageData st in
  mkImageStats withAlt withoutAlt data.

Definition collectImages (imgs : list Img) : ImageStats :=
  fold_left eachImg imgs noImages.

(** ** JSON values and the schema markup check *)

(** JavaScript numbers are left abstract: the handler only tests one for
    truthiness and prints one inside a message. *)
Class JsNumbers : Type := {
  Num : Type;
  numTruthy : Num -> bool;
  numToString : Num -> string
}.

(** A value [JSON.parse] returns.  The fields of an object are in source
    order; of two fields with the same key the later one counts. *)
#[warnings="-register-all"]
Inductive Json `{JsNumbers} : Type :=
| JNull
| JBool (b : bool)
| JNumber (n : Num)
| JString (s : string)
| JArray (items : list Json)
| JObject (fields : list (string * Json)).

(** A JavaScript value that may be [undefined]. *)
Inductive JsValue `{JsNumbers} : Type :=
| Undefined
| Value (v : Json).

(** The outcome of evaluating an expression that may throw. *)
Inductive Completion (A : Type) : Type :=
| Normal (a : A)
| Throw.

Arguments Normal {A} a.
Arguments Throw {A}.

Fixpoint lookupField `{JsNumbers} (key : string) (fields : list (string * Json))
  : JsValue :=
  match fields with
  | [] => Undefined
  | (k, v) :: rest =>
      match lookupField key rest with
      | Value w => Value w
      | Undefined => if k =? key then Value v else Undefined
      end
  end.

(** [v[key]] for a key that is neither [length], nor an index, nor a member
    of a built-in prototype: a [TypeError] on [null], the own field of an
    object, and [undefined] on anything else. *)
Definition getNamed `{JsNumbers} (v : Json) (key : string) : Completion JsValue :=
  match v with
  | JNull => Throw
  | JObject fields => Normal (lookupField key fields)
  | _ => Normal Undefined
  end.

Definition truthyJson `{JsNumbers} (v : Json) : bool :=
  match v with
  | JNull => false
  | JBool b => b
  | JNumber n => numTruthy n
  | JString s => negb (s =? "")
  | JArray _ => true
  | JObject _ => true
  end.

Definition truthyValue `{JsNumbers} (v : JsValue) : bool :=
  match v with
  | Undefined => false
  | Value j => truthyJson j
  end.

Fixpoint joinStrings (separator : string) (pieces : list string) : string :=
  match pieces with
  | [] => ""
  | [piece] => piece
  | piece :: rest => (piece ++ separator ++ joinStrings separator rest)%string
  end.

(** [String(v)]; inside an array, [null] prints as the empty string. *)
Fixpoint jsonToString `{JsNumbers} (v : Json) : string :=
  match v with
  | JNull => "null"
  | JBool b => if b then "true" else "false"
  | JNumber n => numToString n
  | JString s => s
  | JArray items =>
      joinStrings ","
        ((fix elements (l : list Json) : list string :=
            match l with
            | [] => []
            | JNull :: rest => "" :: elements rest
            | item :: rest => jsonToString item :: elements rest
            end) items)
  | JObject _ => "[object Object]"
  end.

(** [arr.join(separator)] on an array of JSON values. *)
Definition joinJson `{JsNumbers} (separator : string) (arr : list Json) : string :=
  joinStrings separator
    (map (fun v => match v with JNull => "" | _ => jsonToString v end) arr).

(** [if (item['@type']) schemaData.push(item['@type'])]. *)
Definition pushType `{JsNumbers} (schemaData : list Json) (t : JsValue) : list Json :=
  match t with
  | Value j => if truthyJson j then Js.push schemaData j else schemaData
  | Undefined => schemaData
  end.

(** [schemaJson.forEach(item => ...)]: a [null] item throws, which ends the
    loop and leaves what was pushed before it. *)
Fixpoint pushItemTypes `{JsNumbers} (items : list Json) (schemaData : list Json)
  : list Json :=
  match items with
  | [] => schemaData
  | item :: rest =>
      match getNamed item "@type" with
      | Throw => schemaData
      | Normal t => pushItemTypes rest (pushType schemaData t)
      end
  end.

(** The body of [$('script[type="application/ld+json"]').each(...)], from the
    outcome of [JSON.parse($(el).html())].  Whatever is thrown is caught and
    only logged. *)
Definition eachScript `{JsNumbers} (schemaData : list Json) (parsed : Completion Json)
  : list Json :=
  match parsed with
  | Throw => schemaData
  | Normal (JArray items) => pushItemTypes items schemaData
  | Normal schemaJson =>
      match getNamed schemaJson "@type" with
      | Throw => schemaData
      | Normal t => pushType schemaData t
      end
  end.

Definition collectSchema `{JsNumbers} (scripts : list (Completion Json)) : list Json :=
  fold_left eachScript scripts [].


(** ** The score *)

(** [score], [strengths] and [issues]. *)
Record Scoring : Type := mkScoring {
  score : Z;
  strengths : list string;
  issues : list string
}.

(** [let score = 50; const strengths = []; const issues = [];]. *)
Definition initialScoring : Scoring := mkScoring 50 [] [].

(** [{ score += points; strengths.push(message); }]. *)
Definition strength (points : Z) (message : string) (s : Scoring) : Scoring :=
  mkScoring (score s + points) (Js.push (strengths s) message) (issues s).

(** [issues.push(message)]. *)
Definition issue (message : string) (s : Scoring) : Scoring :=
  mkScoring (score s) (strengths s) (Js.push (issues s) message).

(** A number inside a template literal. *)
Definition showNat (n : nat) : string := string_of_Z (Z.of_nat n).

Definition scoreTitle (title : string) (s : Scoring) : Scoring :=
  let n := JsString.jsLength title in
  if (0 <? n)%nat && (n <=? 60)%nat then
    strength 10 "Title is present and suitable length ✅" s
  else if (60 <? n)%nat then
    issue "Title is too long (preferably less than 60 characters) ❌" s
  else issue "No Title ❌" s.

Definition scoreMetaPresence (metaDescription : string) (s : Scoring) : Scoring :=
  if negb (metaDescription =? "No description") then
    strength 10 "Meta description is present ✅" s
  else issue "No Meta description ❌" s.

Definition scoreMetaLength (metaDescription : string) (s : Scoring) : Scoring :=
  let n := JsString.jsLength metaDescription in
  if (n <? 50)%nat || (160 <? n)%nat then
    issue "Meta description is too short or too long ❌" s
  else s.

Definition scoreH1 (h1Tags : list string) (s : Scoring) : Scoring :=
  if (length h1Tags =? 1)%nat then strength 10 "One H1 is good ✅" s
  else if (length h1Tags =? 0)%nat then issue "No H1 ❌" s
  else issue ("Number of H1 = " ++ showNat (length h1Tags) ++ " (one is preferred) ❌")%string s.

Definition scoreImages (images : ImageStats) (s : Scoring) : Scoring :=
  if (imagesWithoutAlt images =? 0)%nat && (0 <? length (imageData images))%nat then
    strength 10 "All images have alt attributes ✅" s
  else if (0 <? imagesWithoutAlt images)%nat then
    issue ("Missing alt attributes on " ++ showNat (imagesWithoutAlt images)
           ++ " images ❌")%string s
  else strength 0 "No images found on the page." s.

Definition scoreInternalLinks (links : LinkLists) (s : Scoring) : Scoring :=
  if (0 <? length (internalLinks links))%nat then
    strength 5 ("Found " ++ showNat (length (internalLinks links))
                ++ " internal links. Good for navigation. ✅")%string s
  else issue "No internal links found on the page. ❌" s.

Definition scoreDofollowLinks (links : LinkLists) (s : Scoring) : Scoring :=
  if (0 <? length (externalDofollowLinks links))%nat then
    strength 5 ("Found " ++ showNat (length (externalDofollowLinks links))
                ++ " dofollow external links. Good for linking to authority sites. ✅")%string s
  else s.

(** [issues.push(...); score -= (confirmedBrokenLinksCount * 5);]. *)
Definition scoreBrokenLinks (brokenLinks : list Entry) (s : Scoring) : Scoring :=
  let count := confirmedBrokenLinksCount brokenLinks in
  if (0 <? count)%nat then
    mkScoring (score s - Z.of_nat count * 5) (strengths s)
      (Js.push (issues s) ("Found " ++ showNat count ++ " broken links. Fix them! ❌")%string)
  else s.

Definition scoreNetworkIssues (brokenLinks : list Entry) (s : Scoring) : Scoring :=
  let count := networkIssueLinksCount brokenLinks in
  if (0 <? count)%nat then
    issue ("Found " ++ showNat count
           ++ " links with connection problems or timeouts. Check network or server configuration. ⚠️")%string s
  else s.

Definition scoreSchema `{JsNumbers} (schemaData : list Json) (s : Scoring) : Scoring :=
  if (0 <? length schemaData)%nat then
    strength 5 ("Found Schema Markup (" ++ joinJson ", " schemaData ++ ") ✅")%string s
  else issue "No Schema Markup found. Consider adding it for rich results. ⚠️" s.

(** [if (score > 100) score = 100; if (score < 0) score = 0;]. *)
Definition clampScore (s : Scoring) : Scoring :=
  let s1 := if (100 <? score s)%Z then mkScoring 100 (strengths s) (issues s) else s in
  if (score s1 <? 0)%Z then mkScoring 0 (strengths s1) (issues s1) else s1.

(** The scoring block of the handler, statement by statement. *)
Definition scorePage `{JsNumbers} (title metaDescription : string) (h1Tags : list string)
           (images : ImageStats) (links : LinkLists) (brokenLinks : list Entry)
           (schemaData : list Json) : Scoring :=
  clampScore
    (scoreSchema schemaData
       (scoreNetworkIssues brokenLinks
          (scoreBrokenLinks brokenLinks
             (scoreDofollowLinks links
                (scoreInternalLinks links
                   (scoreImages images
                      (scoreH1 h1Tags
                         (scoreMetaLength metaDescription
                            (scoreMetaPresence metaDescription
                               (scoreTitle title initialScoring)))))))))).

(** [const status = score >= 80 ? 'good' : score >= 60 ? 'average' : 'bad']. *)
Definition statusOf (score : Z) : string :=
  if (80 <=? score)%Z then "good" else if (60 <=? score)%Z then "average" else "bad".

(** The scoring block of [index.js], which has no broken-link check. *)
Module IndexJs.

Definition scorePage `{JsNumbers} (title metaDescription : string) (h1Tags : list string)
           (images : ImageStats) (links : LinkLists) (schemaData : list Json) : Scoring :=
  clampScore
    (scoreSchema schemaData
       (scoreDofollowLinks links
          (scoreInternalLinks links
             (scoreImages images
                (scoreH1 h1Tags
                   (scoreMetaLength metaDescription
                      (scoreMetaPresence metaDescription
                         (scoreTitle title initialScoring)))))))).

End IndexJs.


(** ** Keyword suggestions *)

(** [v > 0] for a JSON value [v] that is the own [length] field of an object:
    the relational comparison of the language, with its coercions, left
    abstract. *)
Class JsComparison `{JsNumbers} : Type := {
  greaterThanZero : Json -> Completion bool
}.

(** [v.length > 0] for a value [v] that has passed a truthiness test. *)
Definition lengthPositive `{JsComparison} (v : Json) : Completion bool :=
  match v with
  | JNull => Throw
  | JArray items => Normal (negb (length items =? 0)%nat)
  | JString s => Normal (0 <? JsString.jsLength s)%nat
  | JObject fields =>
      match lookupField "length" fields with
      | Undefined => Normal false
      | Value w => greaterThanZero w
      end
  | _ => Normal false
  end.

(** [v[0][key]]: a [TypeError] when [v[0]] is [undefined] or [null]. *)
Definition namedOfFirst `{JsNumbers} (v : Json) (key : string) : Completion JsValue :=
  match v with
  | JArray (item :: _) => getNamed item key
  | JString s => if s =? "" then Throw else Normal Undefined
  | JObject fields =>
      match lookupField "0" fields with
      | Undefined => Throw
      | Value item => getNamed item key
      end
  | _ => Throw
  end.

(** [rawKeywords.split('\n').map(k => k.trim()).filter(k => k.length > 0)]. *)
Definition keywordsOf (rawKeywords : string) : list string :=
  filter (fun k => (0 <? JsString.jsLength k)%nat)
         (map JsString.trim (JsString.splitLines rawKeywords)).

(** The body of the [try] block once [await response.json()] has produced
    [result]; [keywordSuggestions] is the empty array before it. *)
Definition keywordsFromResult `{JsComparison} (result : Json) : Completion (list string) :=
  match getNamed result "candidates" with
  | Throw => Throw
  | Normal Undefined => Normal []
  | Normal (Value candidates) =>
      if negb (truthyJson candidates) then Normal []
      else
        match lengthPositive candidates with
        | Throw => Throw
        | Normal false => Normal []
        | Normal true =>
            match namedOfFirst candidates "content" with
            | Throw => Throw
            | Normal Undefined => Normal []
            | Normal (Value content) =>
                if negb (truthyJson content) then Normal []
                else
                  match getNamed content "parts" with
                  | Throw => Throw
                  | Normal Undefined => Normal []
                  | Normal (Value parts) =>
                      if negb (truthyJson parts) then Normal []
                      else
                        match lengthPositive parts with
                        | Throw => Throw
                        | Normal false => Normal []
                        | Normal true =>
                            match namedOfFirst parts "text" with
                            | Normal (Value (JString rawKeywords)) =>
                                Normal (keywordsOf rawKeywords)
                            | _ => Throw
                            end
                        end
                  end
            end
        end
  end.

(** The keyword block, from [contentToSendToLLM], the environment variable
    [GEMINI_API_KEY] and the outcome of [fetch] followed by
    [response.json()]. *)
Definition keywordSuggestionsOf `{JsComparison} (contentToSendToLLM : string)
           (apiKey : option string) (geminiResult : Completion Json) : list string :=
  if (50 <? JsString.jsLength contentToSendToLLM)%nat then
    if negb (Js.truthy apiKey) then
      ["AI analysis failed: Gemini API key is missing. Please set GEMINI_API_KEY environment variable."]
    else
      match geminiResult with
      | Throw =>
          ["Failed to get keyword suggestions from AI. Check your API key and network connection."]
      | Normal result =>
          match keywordsFromResult result with
          | Throw =>
              ["Failed to get keyword suggestions from AI. Check your API key and network connection."]
          | Normal keywordSuggestions => keywordSuggestions
          end
      end
  else ["Not enough textual content to generate keyword suggestions."].

(** ** The handler *)


(** What the queries on the loaded document return, and the text the handler
    derives from the content elements for the language model. *)
Record Page `{JsNumbers} : Type := mkPage {
  head : Head;
  h1Texts : list string;
  imgs : list Img;
  anchors : list Anchor;
  ldJsonScripts : list (Completion Json);
  contentToSendToLLM : string
}.

Arguments mkPage {_} _ _ _ _ _ _.

(** What the world answers to the request for the page itself: a final
    response whose data [cheerio.load] turns into a document, a final
    response whose data [cheerio.load] refuses (a body that axios has parsed
    as JSON, for one), throwing an error with the given message, or a
    failure of the transport. *)
Inductive PageReply `{JsNumbers} : Type :=
| PageCompleted (r : Response) (page : Page)
| PageUnloadable (r : Response) (message : option string)
| PageFaulted (e : JsError).

(** Everything outside the handler: the page, the answers to the link
    checks, the measured load time, the API key and the answer of the
    language-model service. *)
Record World `{JsComparison} : Type := mkWorld {
  pageReply : PageReply;
  net : string -> NetReply;
  loadTime : Z;
  apiKey : option string;
  geminiResult : Completion Json
}.

Arguments mkWorld {_ _} _ _ _ _ _.

(** The default [validateStatus] of axios, used for the page. *)
Definition defaultValidateStatus (status : Z) : bool :=
  (200 <=? status)%Z && (status <? 300)%Z.

(** [const page = await axios.get(url, { headers, timeout: 15000 })]
    followed, when the request resolves, by [const $ = cheerio.load(page.data)]:
    the loaded document, or the error thrown on the way, which the outer
    [catch] receives.  A status that axios does not accept rejects the
    request before the data is looked at. *)
Definition fetchPage `{JsNumbers} (reply : PageReply) : Settled Page :=
  match reply with
  | PageCompleted r page =>
      if (statusCode r =? 0)%Z || defaultValidateStatus (statusCode r) then Fulfilled page
      else Rejected
             (AxiosError (Some r) true
                (if (statusCode r / 100 =? 4)%Z then Some "ERR_BAD_REQUEST"
                 else if (statusCode r / 100 =? 5)%Z then Some "ERR_BAD_RESPONSE"
                 else None)
                (Some ("Request failed with status code " ++ string_of_Z (statusCode r))%string))
  | PageUnloadable r message =>
      if (statusCode r =? 0)%Z || defaultValidateStatus (statusCode r) then
        Rejected (OtherError message)
      else Rejected
             (AxiosError (Some r) true
                (if (statusCode r / 100 =? 4)%Z then Some "ERR_BAD_REQUEST"
                 else if (statusCode r / 100 =? 5)%Z then Some "ERR_BAD_RESPONSE"
                 else None)
                (Some ("Request failed with status code " ++ string_of_Z (statusCode r))%string))
  | PageFaulted e => Rejected e
  end.

(** The JSON object of a successful analysis. *)
Module Report.

Record t `{JsNumbers} : Type := mk {
  url : string;
  title : string;
  metaDescription : string;
  performanceScore : Z;
  status : string;
  strengths : list string;
  issues : list string;
  h1Tags : list string;
  totalImages : nat;
  imagesWithAlt : nat;
  imagesWithoutAlt : nat;
  imageData : list ImageEntry;
  loadTime : Z;
  internalLinks : list string;
  externalDofollowLinks : list string;
  externalNofollowLinks : list string;
  brokenLinks : list Entry;
  schemaData : list Json;
  keywordSuggestions : list string
}.

Arguments mk {_} _ _ _ _ _ _ _ _ _ _ _ _ _ _ _ _ _ _ _.

End Report.

(** What the handler sends: [res.status(code).json(body)]. *)
Inductive Body `{JsNumbers} : Type :=
| ErrorBody (error : string)
| ReportBody (report : Report.t).

Record HttpReply `{JsNumbers} : Type := mkHttpReply {
  httpStatus : Z;
  body : Body
}.

Arguments mkHttpReply {_} _ _.

Definition responseStatusIs (error : JsError) (status : Z) : bool :=
  match error with
  | AxiosError (Some r) _ _ _ => (statusCode r =? status)%Z
  | _ => false
  end.

Definition axiosCodeIs (error : JsError) (name : string) : bool :=
  match error with
  | AxiosError _ _ code _ => codeIs code name
  | OtherError _ => false
  end.

(** The outer [catch (err)] block. *)
Definition errorMessageOf (err : JsError) : string :=
  if axiosCodeIs err "ECONNABORTED" then
    "Website took too long to respond or could not be reached."
  else if responseStatusIs err 404 then "The URL returned a 404 Not Found error."
  else if responseStatusIs err 403 then "Access to the URL was denied (403 Forbidden)."
  else "Failed to analyze website. Some websites block scraping or URL is invalid.".

Definition failure `{JsNumbers} (err : JsError) : HttpReply :=
  mkHttpReply 500 (ErrorBody (errorMessageOf err)).

(** The body of the [try] block after the page has been loaded. *)
Definition analyzePage `{UrlParser} `{JsComparison} (url : string) (parsedUrl : UrlObject)
           (world : World) (page : Page) : Report.t :=
  let title := titleOf (head page) in
  let metaDescription := metaDescriptionOf (head page) in
  let h1Tags := h1TagsOf (h1Texts page) in
  let images := collectImages (imgs page) in
  let links := collectLinks parsedUrl (anchors page) in
  let brokenLinks := verifyLinks (net world) (allLinks links) in
  let schemaData := collectSchema (ldJsonScripts page) in
  let keywordSuggestions :=
    keywordSuggestionsOf (contentToSendToLLM page) (apiKey world) (geminiResult world) in
  let scoring := scorePage title metaDescription h1Tags images links brokenLinks schemaData in
  Report.mk url title metaDescription (score scoring) (statusOf (score scoring))
    (strengths scoring) (issues scoring) h1Tags
    (length (imageData images)) (imagesWithAlt images) (imagesWithoutAlt images)
    (imageData images) (loadTime world)
    (internalLinks links) (externalDofollowLinks links) (externalNofollowLinks links)
    brokenLinks schemaData keywordSuggestions.



(** ** Auxiliary notions for the statements *)

(** The four arrays of one traversal followed by those of another. *)
Definition appendLinkLists (a b : LinkLists) : LinkLists :=
  mkLinkLists (allLinks a ++ allLinks b) (internalLinks a ++ internalLinks b)
              (externalDofollowLinks a ++ externalDofollowLinks b)
              (externalNofollowLinks a ++ externalNofollowLinks b).

(** The record the chain of a link returns, if any. *)
Definition brokenRecord (net : string -> NetReply) (link : string) : option BrokenLink :=
  match linkCheck link (net link) with
  | Fulfilled value => value
  | Rejected _ => None
  end.

Definition isBroken (net : string -> NetReply) (link : string) : bool :=
  match brokenRecord net link with
  | Some _ => true
  | None => false
  end.


(** The entry of [imageData] an image with a [src] gives. *)
Definition imageEntryOf (el : Img) : ImageEntry :=
  mkImageEntry (Js.template "" (imgSrc el)) (Js.or_default (imgAlt el) "")
               (hasAltOf (imgAlt el)).

(** The effect of one scoring statement taken alone, and its application to
    the scoring so far. *)
Definition zeroScoring : Scoring := mkScoring 0 [] [].

Definition combineScoring (s d : Scoring) : Scoring :=
  mkScoring (score s + score d) (strengths s ++ strengths d) (issues s ++ issues d).

(** The points of a check that passes. *)
Definition points (passes : bool) (p : Z) : Z := if passes then p else 0%Z.

(** The score before it is brought into the range from 0 to 100: 50, plus 10
    for each of title, description, single heading and image texts, plus 5
    for each of internal links, followable external links and schema markup,
    minus 5 for every confirmed broken link. *)
Definition rawScore `{JsNumbers} (title metaDescription : string) (h1Tags : list string)
           (images : ImageStats) (links : LinkLists) (brokenLinks : list Entry)
           (schemaData : list Json) : Z :=
  (50
   + points ((1 <=? JsString.jsLength title)%nat && (JsString.jsLength title <=? 60)%nat) 10
   + points (negb (metaDescription =? "No description")%string) 10
   + points (length h1Tags =? 1)%nat 10
   + points ((imagesWithoutAlt images =? 0)%nat && negb (length (imageData images) =? 0)%nat) 10
   + points (negb (length (internalLinks links) =? 0)%nat) 5
   + points (negb (length (externalDofollowLinks links) =? 0)%nat) 5
   - 5 * Z.of_nat (confirmedBrokenLinksCount brokenLinks)
   + points (negb (length schemaData =? 0)%nat) 5)%Z.


(** The numbers that are whole: truthy unless zero, and printed in decimal
    (as the language prints a whole number below ten to the power 21). *)
#[export] Instance wholeNumbers : JsNumbers := {|
  Num := Z;
  numTruthy := fun n => negb (n =? 0)%Z;
  numToString := string_of_Z
|}.


(** The type an item declares, in the words of the property and not of the
    loop: when the item is an object, the value of its field [@type] (the
    last one of that name) if that value is truthy; nothing otherwise. *)
Definition declaredType `{JsNumbers} (item : Json) : list Json :=
  match item with
  | JObject fields =>
      match lookupField "@type" fields with
      | Value t => if truthyJson t then [t] else []
      | Undefined => []
      end
  | _ => []
  end.

(** The JSON object [{"@type": name}]. *)
Definition typed `{JsNumbers} (name : string) : Json :=
  JObject [("@type", JString name)].

Definition isNull `{JsNumbers} (v : Json) : bool :=
  match v with
  | JNull => true
  | _ => false
  end.

(** The line feed, as a string and as a test on characters. *)
Definition lineFeed : string := String (ascii_of_nat 10) EmptyString.

Definition isLineFeed (c : ascii) : bool := (nat_of_ascii c =? 10)%nat.

(** * Properties *)

(** ** Strings and JavaScript helpers *)

Lemma prefix_spec (a s : string) :
  String.prefix a s = true <-> exists b : string, s = (a ++ b)%string.
Proof.
  revert s; induction a as [|c a IH]; intros s; simpl.
  - split; [intros _; exists s; reflexivity | destruct s; reflexivity].
  - destruct s as [|d s]; simpl.
    + split; [discriminate | intros [b Hb]; discriminate].
    + destruct (Ascii.ascii_dec c d) as [->|Hne].
      * rewrite IH. split; intros [b Hb]; exists b; congruence.
      * split; [discriminate | intros [b Hb]; congruence].
Qed.

Lemma includes_spec (s sub : string) :
  Js.includes s sub = true <-> occursIn sub s.
Proof.
  unfold occursIn. induction s as [|c s IH]; cbn [Js.includes].
  - rewrite orb_false_r, prefix_spec. split.
    + intros [b Hb]. exists EmptyString, b. exact Hb.
    + intros [before [after H]]. destruct before; [exists after; exact H | discriminate].
  - rewrite orb_true_iff, prefix_spec, IH. split.
    + intros [[b Hb] | [before [after H]]].
      * exists EmptyString, b. exact Hb.
      * exists (String c before), after. simpl. now rewrite H.
    + intros [before [after H]]. destruct before as [|d before]; simpl in H.
      * left. exists after. exact H.
      * right. exists before, after. congruence.
Qed.

Lemma strict_eq_spec (a b : option string) : Js.strict_eq a b = true <-> a = b.
Proof.
  destruct a as [x|], b as [y|]; simpl; try (split; congruence).
  rewrite String.eqb_eq. split; congruence.
Qed.


Lemma truthy_false (v : option string) :
  Js.truthy v = false <-> v = None \/ v = Some "".
Proof.
  destruct v as [s|]; simpl.
  - rewrite negb_false_iff, String.eqb_eq. split.
    + intros ->. now right.
    + intros [H|H]; congruence.
  - split; [now left | reflexivity].
Qed.

Lemma push_neq {A : Type} (l : list A) (x : A) : Js.push l x <> l.
Proof.
  unfold Js.push. intros H. apply (f_equal (@length A)) in H.
  rewrite length_app in H. simpl in H. lia.
Qed.

(** ** The [Set] of links *)

Lemma set_add_In (seen : list string) (x y : string) :
  In y (Js.set_add seen x) <-> In y seen \/ y = x.
Proof.
  unfold Js.set_add. destruct (existsb (String.eqb x) seen) eqn:E.
  - apply existsb_exists in E. destruct E as [z [Hz Hxz]].
    apply String.eqb_eq in Hxz. subst z. split; [tauto | intros [H| ->]; assumption].
  - rewrite in_app_iff. simpl. split; [intros [H|[H|[]]]; auto | intros [H|H]; auto].
Qed.

Lemma set_add_NoDup (seen : list string) (x : string) :
  NoDup seen -> NoDup (Js.set_add seen x).
Proof.
  intros Hnd. unfold Js.set_add. destruct (existsb (String.eqb x) seen) eqn:E; [exact Hnd|].
  apply NoDup_app; [exact Hnd | repeat constructor; intros [] | ].
  intros y Hy [Hy'|[]]. subst y.
  assert (existsb (String.eqb x) seen = true); [|congruence].
  apply existsb_exists. exists x. split; [exact Hy | apply String.eqb_refl].
Qed.

Lemma fold_set_add_In (arr seen : list string) (y : string) :
  In y (fold_left Js.set_add arr seen) <-> In y seen \/ In y arr.
Proof.
  revert seen; induction arr as [|x arr IH]; intros seen; simpl.
  - tauto.
  - rewrite IH, set_add_In. intuition (subst; auto).
Qed.

Lemma fold_set_add_NoDup (arr seen : list string) :
  NoDup seen -> NoDup (fold_left Js.set_add arr seen).
Proof.
  revert seen; induction arr as [|x arr IH]; intros seen Hnd; simpl; [exact Hnd|].
  apply IH, set_add_NoDup, Hnd.
Qed.

Lemma uniqueLinksToCheck_In (allLinks : list string) (u : string) :
  In u (uniqueLinksToCheck allLinks) <-> In u allLinks.
Proof.
  unfold uniqueLinksToCheck, Js.set_of_array. rewrite fold_set_add_In. simpl. tauto.
Qed.

Lemma uniqueLinksToCheck_NoDup (allLinks : list string) :
  NoDup (uniqueLinksToCheck allLinks).
Proof. apply fold_set_add_NoDup. constructor. Qed.

Lemma uniqueLinksToCheck_count (allLinks : list string) (u : string) :
  In u allLinks -> count_occ string_dec (uniqueLinksToCheck allLinks) u = 1.
Proof.
  intros Hin.
  assert (Hle : count_occ string_dec (uniqueLinksToCheck allLinks) u <= 1)
    by (apply NoDup_count_occ, uniqueLinksToCheck_NoDup).
  assert (Hpos : count_occ string_dec (uniqueLinksToCheck allLinks) u > 0)
    by (apply count_occ_In, uniqueLinksToCheck_In, Hin).
  lia.
Qed.

(** ** Anchor traversal *)

Section Traversal.

Context {U : UrlParser}.
Variable parsedUrl : UrlObject.

Lemma eachAnchor_no_href (st : LinkLists) (el : Anchor) :
  href el = None \/ href el = Some "" -> eachAnchor parsedUrl st el = st.
Proof. intros [H|H]; unfold eachAnchor; now rewrite H. Qed.

Lemma eachAnchor_resolved (st : LinkLists) (el : Anchor) (rawHref absoluteHref : string)
      (parsedHref : UrlObject) :
  href el = Some rawHref ->
  rawHref <> "" ->
  resolve (baseUrl parsedUrl) rawHref = Some absoluteHref ->
  parse absoluteHref = Some parsedHref ->
  eachAnchor parsedUrl st el
  = pushClassified (pushAll st absoluteHref)
      (classify parsedHref parsedUrl (Js.or_default (rel el) "")) absoluteHref.
Proof.
  intros Hh Hne Hr Hp. unfold eachAnchor. apply String.eqb_neq in Hne.
  now rewrite Hh, Hne, Hr, Hp.
Qed.

Lemma collectLinks_skip (before after : list Anchor) (el : Anchor) :
  href el = None \/ href el = Some "" ->
  collectLinks parsedUrl (before ++ el :: after) = collectLinks parsedUrl (before ++ after).
Proof.
  intros H. unfold collectLinks. rewrite !fold_left_app. simpl.
  now rewrite eachAnchor_no_href.
Qed.

End Traversal.

Lemma pushClassified_inj (st : LinkLists) (c c' : LinkClass) (x : string) :
  pushClassified st c x = pushClassified st c' x -> c = c'.
Proof.
  intros H.
  pose proof (f_equal internalLinks H) as Hi.
  pose proof (f_equal externalDofollowLinks H) as Hd.
  pose proof (f_equal externalNofollowLinks H) as Hn.
  destruct c, c'; simpl in Hi, Hd, Hn; try reflexivity; exfalso;
    first [ now apply (push_neq _ _ Hi) | now apply (push_neq _ _ (eq_sym Hi))
          | now apply (push_neq _ _ Hd) | now apply (push_neq _ _ (eq_sym Hd))
          | now apply (push_neq _ _ Hn) | now apply (push_neq _ _ (eq_sym Hn)) ].
Qed.

Lemma sameOrigin_spec (parsedHref parsedUrl : UrlObject) :
  sameOrigin parsedHref parsedUrl = true
  <-> protocol parsedHref = protocol parsedUrl /\ host parsedHref = host parsedUrl.
Proof.
  unfold sameOrigin. now rewrite andb_true_iff, !strict_eq_spec.
Qed.

Lemma classify_internal (parsedHref parsedUrl : UrlObject) (rel : string) :
  classify parsedHref parsedUrl rel = Internal <-> sameOrigin parsedHref parsedUrl = true.
Proof.
  unfold classify. destruct (sameOrigin parsedHref parsedUrl).
  - tauto.
  - destruct (relUnfollowed rel); split; discriminate.
Qed.

Lemma relUnfollowed_spec (rel : option string) :
  relUnfollowed (Js.or_default rel "") = true <-> relMarksUnfollowed rel.
Proof.
  assert (Hs : forall v, relUnfollowed v = true
               <-> (occursIn "nofollow" v \/ occursIn "ugc" v \/ occursIn "sponsored" v)).
  { intros v. unfold relUnfollowed. rewrite !orb_true_iff, !includes_spec. tauto. }
  unfold relMarksUnfollowed. destruct rel as [v|]; simpl.
  - destruct (v =? "") eqn:E.
    + apply String.eqb_eq in E. subst v. rewrite Hs. split.
      * intros H. now exists "".
      * intros [v [Hv H]]. now inversion Hv; subst.
    + rewrite Hs. split.
      * intros H. now exists v.
      * intros [w [Hw H]]. now inversion Hw; subst.
  - split; [discriminate | intros [v [Hv _]]; discriminate].
Qed.

(** C10: an anchor whose [href] attribute is missing or empty fails the
    [if (href)] guard: the callback leaves [allLinks], [internalLinks],
    [externalDofollowLinks] and [externalNofollowLinks] as they were, the
    page's lists are those of the page without that anchor, and so are the
    verification requests that get issued; alone on a page, such an anchor
    causes no request at all. *)
Theorem C10_anchor_without_href_is_ignored {U : UrlParser} (parsedUrl : UrlObject)
        (el : Anchor) :
  href el = None \/ href el = Some "" ->
  (forall st, eachAnchor parsedUrl st el = st)
  /\ (forall before after,
        collectLinks parsedUrl (before ++ el :: after)
        = collectLinks parsedUrl (before ++ after))
  /\ (forall before after,
        requestsIssued
          (launch (uniqueLinksToCheck
                     (allLinks (collectLinks parsedUrl (before ++ el :: after)))))
        = requestsIssued
            (launch (uniqueLinksToCheck
                       (allLinks (collectLinks parsedUrl (before ++ after))))))
  /\ requestsIssued (launch (uniqueLinksToCheck (allLinks (collectLinks parsedUrl [el]))))
     = [].
Proof.
  intros H.
  split; [|split; [|split]].
  - intros st. now apply eachAnchor_no_href.
  - intros before after. now apply collectLinks_skip.
  - intros before after. now rewrite collectLinks_skip.
  - rewrite (collectLinks_skip parsedUrl [] [] el H). reflexivity.
Qed.

Lemma C10_witness :
  let el := mkAnchor (Some "") (Some "nofollow") in
  (href el = None \/ href el = Some "")
  /\ forall st, eachAnchor (parsedUrlOf "https://example.com") st el = st.
Proof.
  intros el. split.
  - right. reflexivity.
  - apply (C10_anchor_without_href_is_ignored (parsedUrlOf "https://example.com") el).
    right. reflexivity.
Defined.

(** C5: for an anchor whose [href] resolves and parses, the link goes to
    [internalLinks] exactly when the protocol and the host of the parsed link
    are equal to those of the analysed page, and it is pushed to exactly one
    of [internalLinks], [externalDofollowLinks] and [externalNofollowLinks]
    (besides [allLinks]), the other two being left as they were. *)
Theorem C5_internal_iff_same_origin_and_one_class {U : UrlParser} (parsedUrl : UrlObject)
        (st : LinkLists) (el : Anchor) (rawHref absoluteHref : string)
        (parsedHref : UrlObject) :
  href el = Some rawHref ->
  rawHref <> "" ->
  resolve (baseUrl parsedUrl) rawHref = Some absoluteHref ->
  parse absoluteHref = Some parsedHref ->
  let st' := eachAnchor parsedUrl st el in
  (st' = pushClassified (pushAll st absoluteHref) Internal absoluteHref
   <-> protocol parsedHref = protocol parsedUrl /\ host parsedHref = host parsedUrl)
  /\ (exists! c : LinkClass, st' = pushClassified (pushAll st absoluteHref) c absoluteHref)
  /\ length (internalLinks st') + length (externalDofollowLinks st')
     + length (externalNofollowLinks st')
     = S (length (internalLinks st) + length (externalDofollowLinks st)
          + length (externalNofollowLinks st)).
Proof.
  intros Hh Hne Hr Hp st'. subst st'.
  rewrite (eachAnchor_resolved parsedUrl st el rawHref absoluteHref parsedHref Hh Hne Hr Hp).
  set (c := classify parsedHref parsedUrl (Js.or_default (rel el) "")).
  split; [|split].
  - rewrite <- sameOrigin_spec, <- (classify_internal _ _ (Js.or_default (rel el) "")).
    fold c. split.
    + apply pushClassified_inj.
    + now intros ->.
  - exists c. split; [reflexivity|]. intros c' Hc'. now apply pushClassified_inj in Hc'.
  - destruct c; simpl; unfold Js.push; rewrite length_app; simpl; lia.
Qed.

Lemma C5_witness :
  let parsedUrl := parsedUrlOf "https://example.com" in
  let el := mkAnchor (Some "/about") None in
  let st' := eachAnchor parsedUrl noLinks el in
  href el = Some "/about"
  /\ "/about" <> ""
  /\ resolve (baseUrl parsedUrl) "/about" = Some "https://example.com/about"
  /\ parse "https://example.com/about"
     = Some (mkUrlObject (Some "https:") (Some "example.com"))
  /\ exists! c : LinkClass,
       st' = pushClassified (pushAll noLinks "https://example.com/about") c
               "https://example.com/about".
Proof.
  intros parsedUrl el st'.
  split; [reflexivity|]. split; [discriminate|]. split; [reflexivity|]. split; [reflexivity|].
  apply (C5_internal_iff_same_origin_and_one_class parsedUrl noLinks el "/about"
           "https://example.com/about" (mkUrlObject (Some "https:") (Some "example.com")));
    first [reflexivity | discriminate].
Defined.

(** C6: for an anchor whose resolved link is external (protocol or host
    differs from the page's), the link goes to [externalNofollowLinks] exactly
    when the [rel] attribute is present and contains [nofollow], [ugc] or
    [sponsored] as a substring, and to [externalDofollowLinks] otherwise; a
    missing [rel] attribute therefore gives a followable link. *)
Theorem C6_unfollowed_iff_rel_contains_word {U : UrlParser} (parsedUrl : UrlObject)
        (st : LinkLists) (el : Anchor) (rawHref absoluteHref : string)
        (parsedHref : UrlObject) :
  href el = Some rawHref ->
  rawHref <> "" ->
  resolve (baseUrl parsedUrl) rawHref = Some absoluteHref ->
  parse absoluteHref = Some parsedHref ->
  sameOrigin parsedHref parsedUrl = false ->
  let st' := eachAnchor parsedUrl st el in
  (st' = pushClassified (pushAll st absoluteHref) ExternalNofollow absoluteHref
   <-> relMarksUnfollowed (rel el))
  /\ (st' = pushClassified (pushAll st absoluteHref) ExternalDofollow absoluteHref
      <-> ~ relMarksUnfollowed (rel el))
  /\ (rel el = None ->
      st' = pushClassified (pushAll st absoluteHref) ExternalDofollow absoluteHref).
Proof.
  intros Hh Hne Hr Hp Hext st'. subst st'.
  rewrite (eachAnchor_resolved parsedUrl st el rawHref absoluteHref parsedHref Hh Hne Hr Hp).
  rewrite <- relUnfollowed_spec.
  assert (Hn : rel el = None -> relUnfollowed (Js.or_default (rel el) "") = false)
    by (intros ->; reflexivity).
  unfold classify. rewrite Hext.
  destruct (relUnfollowed (Js.or_default (rel el) "")).
  - split; [|split].
    + tauto.
    + split; [intros H; apply pushClassified_inj in H; discriminate | congruence].
    + intros H. apply Hn in H. discriminate.
  - split; [|split].
    + split; [intros H; apply pushClassified_inj in H; discriminate | discriminate].
    + split; [discriminate | reflexivity].
    + reflexivity.
Qed.

Lemma C6_witness :
  let parsedUrl := parsedUrlOf "https://example.com" in
  let el := mkAnchor (Some "https://other.com/x") (Some "external nofollow") in
  let parsedHref := mkUrlObject (Some "https:") (Some "other.com") in
  href el = Some "https://other.com/x"
  /\ "https://other.com/x" <> ""
  /\ resolve (baseUrl parsedUrl) "https://other.com/x" = Some "https://other.com/x"
  /\ parse "https://other.com/x" = Some parsedHref
  /\ sameOrigin parsedHref parsedUrl = false
  /\ (eachAnchor parsedUrl noLinks el
      = pushClassified (pushAll noLinks "https://other.com/x") ExternalNofollow
          "https://other.com/x"
      <-> relMarksUnfollowed (rel el)).
Proof.
  intros parsedUrl el parsedHref.
  split; [reflexivity|]. split; [discriminate|]. split; [reflexivity|].
  split; [reflexivity|]. split; [reflexivity|].
  apply (C6_unfollowed_iff_rel_contains_word parsedUrl noLinks el "https://other.com/x"
           "https://other.com/x" parsedHref); first [reflexivity | discriminate].
Defined.

Example rel_match_is_case_sensitive :
  relUnfollowed "NoFollow" = false /\ relUnfollowed "ugc" = true.
Proof. split; reflexivity. Qed.

(** ** The per-link chain *)

Lemma catchDetail_type (error : JsError) : In (snd (catchDetail error)) handlerTypes.
Proof.
  unfold handlerTypes.
  destruct error as [[r|] [|] code message | message]; simpl.
  - destruct (500 <=? statusCode r)%Z; [simpl; tauto|].
    destruct ((400 <=? statusCode r)%Z && (statusCode r <? 500)%Z); simpl; tauto.
  - destruct (500 <=? statusCode r)%Z; [simpl; tauto|].
    destruct ((400 <=? statusCode r)%Z && (statusCode r <? 500)%Z); simpl; tauto.
  - repeat match goal with
           | |- context [if ?b then _ else _] => destruct b
           end; simpl; tauto.
  - tauto.
  - tauto.
Qed.

Lemma catchHandler_record (link : string) (error : JsError) :
  exists b, catchHandler link error = Some b /\ url b = link /\ In (type b) handlerTypes.
Proof.
  unfold catchHandler. pose proof (catchDetail_type error) as H.
  destruct (catchDetail error) as [statusDetail errorType]. simpl in H.
  eexists. split; [reflexivity|]. split; [reflexivity | exact H].
Qed.

Lemma thenHandler_record (link : string) (response : Response) (b : BrokenLink) :
  thenHandler link response = Some b -> url b = link /\ In (type b) handlerTypes.
Proof.
  unfold thenHandler.
  destruct ((400 <=? statusCode response)%Z && (statusCode response <? 500)%Z);
    [|discriminate].
  intros H. inversion H; subst. simpl. tauto.
Qed.

(** The chain of a link never rejects: its [catch] handler turns every
    rejection of the request into a returned record. *)
Lemma linkCheck_fulfilled (link : string) (reply : NetReply) :
  exists value, linkCheck link reply = Fulfilled value.
Proof.
  unfold linkCheck. destruct (axios_get reply); simpl; eauto.
Qed.

Lemma linkCheck_record (link : string) (reply : NetReply) (b : BrokenLink) :
  linkCheck link reply = Fulfilled (Some b) -> url b = link /\ In (type b) handlerTypes.
Proof.
  unfold linkCheck. destruct (axios_get reply) as [r|e]; simpl; intros H.
  - inversion H as [H']. now apply thenHandler_record in H'.
  - destruct (catchHandler_record link e) as [b' [Hb' Hprop]].
    rewrite Hb' in H. inversion H; subst. exact Hprop.
Qed.

Lemma linkCheck_faulted (link : string) (error : JsError) :
  linkCheck link (Faulted error) = Fulfilled (catchHandler link error).
Proof. reflexivity. Qed.

(** ** From settled promises to [brokenLinks] *)

Lemma pushResult_app (acc : list Entry) (result : Settled (option BrokenLink)) :
  pushResult acc result = acc ++ pushResult [] result.
Proof.
  destruct result as [[b|]|e]; simpl; unfold Js.push; simpl; now rewrite ?app_nil_r.
Qed.

Lemma fold_pushResult (results : list (Settled (option BrokenLink))) (acc : list Entry) :
  fold_left pushResult results acc = acc ++ flat_map (pushResult []) results.
Proof.
  revert acc; induction results as [|r results IH]; intros acc; simpl.
  - now rewrite app_nil_r.
  - rewrite IH, (pushResult_app acc r). now rewrite <- app_assoc.
Qed.

Lemma collectBroken_flat_map (results : list (Settled (option BrokenLink))) :
  collectBroken results = flat_map (pushResult []) results.
Proof. unfold collectBroken. now rewrite fold_pushResult. Qed.

Lemma In_verifyLinks (net : string -> NetReply) (allLinks : list string) (e : Entry) :
  In e (verifyLinks net allLinks)
  <-> exists link, In link allLinks /\ In e (pushResult [] (linkCheck link (net link))).
Proof.
  unfold verifyLinks, linkCheckResults. rewrite collectBroken_flat_map, in_flat_map. split.
  - intros [r [Hr He]]. apply in_map_iff in Hr. destruct Hr as [link [<- Hl]].
    exists link. split; [now apply uniqueLinksToCheck_In | exact He].
  - intros [link [Hl He]]. exists (linkCheck link (net link)). split; [|exact He].
    apply in_map_iff. exists link. split; [reflexivity | now apply uniqueLinksToCheck_In].
Qed.

(** Every element of [brokenLinks] is a record returned by the chain of the
    link it names, with one of the five [type] strings of the handlers. *)
Lemma verifyLinks_entries (net : string -> NetReply) (allLinks : list string) (e : Entry) :
  In e (verifyLinks net allLinks) ->
  exists b, e = Record_ b /\ In (url b) allLinks
            /\ linkCheck (url b) (net (url b)) = Fulfilled (Some b)
            /\ In (type b) handlerTypes.
Proof.
  intros H. apply In_verifyLinks in H. destruct H as [link [Hl He]].
  destruct (linkCheck_fulfilled link (net link)) as [[b|] Hv]; rewrite Hv in He; simpl in He.
  - destruct He as [<-|[]]. destruct (linkCheck_record _ _ _ Hv) as [Hu Ht].
    exists b. subst link. now repeat split.
  - destruct He.
Qed.

(** ** Status of a completed exchange *)

(** What the handlers do with a response whose body is within the
    content-length cap: when the exchange with a link of the page ends with
    a status in [200, 500), axios resolves the request (nothing is thrown);
    with a status in [400, 500) the chain returns the record
    [{url: link, status: <the status>, type: 'Client Error'}], which is in
    [brokenLinks]; with a status in [200, 400) the chain returns [null] and
    [brokenLinks] has no element for that link. *)
Theorem within_cap_accepted_status_resolves_4xx_recorded_2xx_3xx_excluded
        (net : string -> NetReply) (allLinks : list string) (link : string) (r : Response) :
  In link allLinks ->
  net link = Completed r ->
  (200 <= statusCode r < 500)%Z ->
  axios_get (net link) = Fulfilled r
  /\ ((400 <= statusCode r)%Z ->
      let record := mkBrokenLink link (StatusCode (statusCode r)) "Client Error" in
      linkCheck link (net link) = Fulfilled (Some record)
      /\ In (Record_ record) (verifyLinks net allLinks))
  /\ ((statusCode r < 400)%Z ->
      linkCheck link (net link) = Fulfilled None
      /\ forall e, In e (verifyLinks net allLinks) -> entryUrl e <> Some link).
Proof.
  intros Hin Hnet Hs.
  assert (Hget : axios_get (net link) = Fulfilled r).
  { rewrite Hnet. unfold axios_get, validateStatus.
    replace ((200 <=? statusCode r)%Z) with true by (symmetry; apply Z.leb_le; lia).
    replace ((statusCode r <? 500)%Z) with true by (symmetry; apply Z.ltb_lt; lia).
    now rewrite orb_true_r. }
  split; [exact Hget|]. split.
  - intros H4 record.
    assert (Hc : linkCheck link (net link) = Fulfilled (Some record)).
    { unfold linkCheck. rewrite Hget. simpl. unfold thenHandler.
      replace ((400 <=? statusCode r)%Z) with true by (symmetry; apply Z.leb_le; lia).
      replace ((statusCode r <? 500)%Z) with true by (symmetry; apply Z.ltb_lt; lia).
      reflexivity. }
    split; [exact Hc|]. apply In_verifyLinks. exists link. split; [exact Hin|].
    rewrite Hc. simpl. now left.
  - intros H4.
    assert (Hc : linkCheck link (net link) = Fulfilled None).
    { unfold linkCheck. rewrite Hget. simpl. unfold thenHandler.
      replace ((400 <=? statusCode r)%Z) with false by (symmetry; apply Z.leb_gt; lia).
      reflexivity. }
    split; [exact Hc|]. intros e He Hu.
    apply verifyLinks_entries in He. destruct He as [b [-> [_ [Hb _]]]].
    simpl in Hu. inversion Hu as [Hu']. rewrite Hu', Hc in Hb. discriminate.
Qed.

Lemma within_cap_witness :
  let net := fun _ : string => Completed (mkResponse 404) in
  let link := "https://example.com/missing" in
  In link [link]
  /\ net link = Completed (mkResponse 404)
  /\ (200 <= 404 < 500)%Z
  /\ axios_get (net link) = Fulfilled (mkResponse 404).
Proof.
  intros net link.
  split; [simpl; auto|]. split; [reflexivity|]. split; [lia|].
  apply (within_cap_accepted_status_resolves_4xx_recorded_2xx_3xx_excluded
           net [link] link (mkResponse 404)); [simpl; auto | reflexivity | simpl; lia].
Defined.

(** C2 does not hold of the request as the handler configures it.  The
    comments of the handler take [maxContentLength: 2000] for a way to
    download the first 2KB only and call every 2xx or 3xx response a good
    link; but a response whose body is longer than 2000 bytes makes axios
    reject, whatever the status, and the [catch] handler turns the rejection
    into the record
    [{url: link, status: 'Axios Request Error: ERR_BAD_RESPONSE', type: 'Network Issue'}].
    So a link that answers 200 with an ordinary page is pushed to
    [brokenLinks] and counted among the links with network issues, and a
    link that answers 404 with such a body is not recorded as a Client
    Error. *)
Theorem C2_oversized_body_is_recorded_as_network_issue (link : string) (r : Response) :
  let record :=
    mkBrokenLink link (StatusText "Axios Request Error: ERR_BAD_RESPONSE") "Network Issue" in
  let net := fun _ : string => Oversized r in
  axios_get (Oversized r)
  = Rejected (AxiosError None true (Some "ERR_BAD_RESPONSE")
                (Some "maxContentLength size of 2000 exceeded"))
  /\ linkCheck link (Oversized r) = Fulfilled (Some record)
  /\ verifyLinks net [link] = [Record_ record]
  /\ networkIssueLinksCount (verifyLinks net [link]) = 1
  /\ confirmedBrokenLinksCount (verifyLinks net [link]) = 0.
Proof. repeat split. Qed.

(** ** The taxonomy of failures *)



(** C4, as the specification words it, fails on its own example.  A URL
    that does not parse (here one whose port is out of range, which
    [urlParser.resolve] hands on as it stands) is rejected by axios before
    anything is sent, with the [TypeError] of the URL constructor, whose
    message is ['Invalid URL'].  That error is no Axios error, so the handler
    never looks at its request: the record has the type ['Non-Axios Error'],
    the specification's UnknownError, and not RequestSetupError. *)
Lemma C4_counterexample_malformed_url :
  let link := "http://example.org:99999/" in
  let error := OtherError (Some "Invalid URL") in
  isAxiosError error = false
  /\ linkCheck link (Faulted error)
     = Fulfilled (Some (mkBrokenLink link (StatusText "Invalid URL") "Non-Axios Error"))
  /\ outcomeCategory (catchHandler link error) = Some UnknownError
  /\ outcomeCategory (catchHandler link error) <> Some RequestSetupError.
Proof. repeat split. discriminate. Qed.

(** C4, amended: the category RequestSetupError is that of the Axios
    failures with neither response nor request.  Such a failure gives the
    type ['Unknown Axios Error'] and as status label its message (the fixed
    label ['Axios Setup Error'] standing in for a missing or empty message);
    a failure that is not an Axios error, whether or not a request was
    attempted, gives the type ['Non-Axios Error'] (the specification's
    UnknownError) and as label its message, or ['Unknown Error'] when it has
    none. *)
Theorem C4_setup_and_unknown_errors (link : string) :
  (forall code message,
      catchHandler link (AxiosError None false code message)
      = Some (mkBrokenLink link (StatusText (Js.or_default message "Axios Setup Error"))
                "Unknown Axios Error")
      /\ outcomeCategory (catchHandler link (AxiosError None false code message))
         = Some RequestSetupError
      /\ (forall m, message = Some m -> m <> "" ->
                    Js.or_default message "Axios Setup Error" = m)
      /\ (Js.truthy message = false ->
          Js.or_default message "Axios Setup Error" = "Axios Setup Error"))
  /\ (forall message,
         catchHandler link (OtherError message)
         = Some (mkBrokenLink link (StatusText (Js.or_default message "Unknown Error"))
                   "Non-Axios Error")
         /\ outcomeCategory (catchHandler link (OtherError message)) = Some UnknownError
         /\ (forall m, message = Some m -> m <> "" ->
                       Js.or_default message "Unknown Error" = m)).
Proof.
  assert (Hm : forall message d m, message = Some m -> m <> "" ->
                                   Js.or_default message d = m).
  { intros message d m -> Hne. simpl. destruct (m =? "") eqn:E; [|reflexivity].
    apply String.eqb_eq in E. contradiction. }
  split.
  - intros code message. repeat split.
    + intros m. apply Hm.
    + intros Hf. apply truthy_false in Hf. destruct Hf as [-> | ->]; reflexivity.
  - intros message. repeat split. intros m. apply Hm.
Qed.

(** ** The counters *)

Lemma confirmed_test (e : Entry) :
  typeIs e "Client Error" || typeIs e "Server Error" = isConfirmedBroken (entryCategory e).
Proof.
  destruct e as [b|err]; [|reflexivity].
  unfold typeIs, entryType, entryCategory, categoryOfType, Js.strict_eq.
  repeat match goal with
         | |- context [type b =? ?s] => destruct (type b =? s)
         end; reflexivity.
Qed.

Lemma network_test (e : Entry) :
  typeIs e "Connection Problem" = false ->
  typeIs e "Network Issue" || typeIs e "Connection Problem"
  = isNetworkIssue (entryCategory e).
Proof.
  intros H. rewrite H, orb_false_r.
  destruct e as [b|err]; [|reflexivity].
  unfold typeIs, entryType, entryCategory, categoryOfType, Js.strict_eq.
  destruct (type b =? "Client Error") eqn:E1;
    [apply String.eqb_eq in E1; rewrite E1; reflexivity|].
  destruct (type b =? "Server Error") eqn:E2;
    [apply String.eqb_eq in E2; rewrite E2; reflexivity|].
  destruct (type b =? "Network Issue"); [reflexivity|].
  repeat match goal with
         | |- context [type b =? ?s] => destruct (type b =? s)
         end; reflexivity.
Qed.

Lemma verifyLinks_no_connection_problem (net : string -> NetReply) (allLinks : list string) :
  Forall (fun e => typeIs e "Connection Problem" = false) (verifyLinks net allLinks).
Proof.
  apply Forall_forall. intros e He.
  apply verifyLinks_entries in He. destruct He as [b [-> [_ [_ Ht]]]].
  unfold typeIs. simpl. unfold handlerTypes in Ht. simpl in Ht.
  destruct Ht as [<-|[<-|[<-|[<-|[<-|[]]]]]]; reflexivity.
Qed.

(** C9: on the [brokenLinks] of the verification phase,
    [confirmedBrokenLinksCount] is the number of elements of category Client
    Error or Server Error and [networkIssueLinksCount] is the number of
    elements of category Network Issue: no element has the type
    ['Connection Problem'], so the second disjunct of the filter never
    holds. *)
Theorem C9_counts_by_category (net : string -> NetReply) (allLinks : list string) :
  let brokenLinks := verifyLinks net allLinks in
  confirmedBrokenLinksCount brokenLinks
  = length (filter (fun e => isConfirmedBroken (entryCategory e)) brokenLinks)
  /\ networkIssueLinksCount brokenLinks
     = length (filter (fun e => isNetworkIssue (entryCategory e)) brokenLinks)
  /\ networkIssueLinksCount brokenLinks
     = length (filter (fun e => typeIs e "Network Issue") brokenLinks)
  /\ Forall (fun e => typeIs e "Connection Problem" = false) brokenLinks
  /\ Forall (fun e => In (entryType e) (map Some handlerTypes)) brokenLinks.
Proof.
  intros brokenLinks.
  pose proof (verifyLinks_no_connection_problem net allLinks) as Hcp.
  fold brokenLinks in Hcp. rewrite Forall_forall in Hcp.
  unfold confirmedBrokenLinksCount, networkIssueLinksCount.
  split; [|split; [|split; [|split]]].
  - f_equal. apply filter_ext. intros e. apply confirmed_test.
  - f_equal. apply filter_ext_in. intros e He. apply network_test, Hcp, He.
  - f_equal. apply filter_ext_in. intros e He. rewrite (Hcp e He). apply orb_false_r.
  - apply Forall_forall. exact Hcp.
  - apply Forall_forall. intros e He. apply verifyLinks_entries in He.
    destruct He as [b [-> [_ [_ Ht]]]]. unfold entryType. now apply in_map.
Qed.

(** ** One request per distinct link *)

Lemma requestsIssued_launch (links : list string) : requestsIssued (launch links) = links.
Proof.
  unfold requestsIssued, launch. rewrite map_map. simpl. apply map_id.
Qed.

Lemma records_of_link_le (net : string -> NetReply) (u : string) (links : list string) :
  length (filter (fun e => Js.strict_eq (entryUrl e) (Some u))
                 (flat_map (pushResult []) (linkCheckResults net links)))
  <= count_occ string_dec links u.
Proof.
  induction links as [|x links IH]; simpl; [lia|].
  rewrite filter_app, length_app.
  assert (Hhead : length (filter (fun e => Js.strict_eq (entryUrl e) (Some u))
                                 (pushResult [] (linkCheck x (net x))))
                  <= if string_dec x u then 1 else 0).
  { destruct (linkCheck_fulfilled x (net x)) as [[b|] Hv]; rewrite Hv; simpl.
    - destruct (linkCheck_record _ _ _ Hv) as [Hu _]. rewrite Hu.
      destruct (string_dec x u) as [->|Hne].
      + rewrite String.eqb_refl. simpl. lia.
      + apply String.eqb_neq in Hne. rewrite Hne. simpl. lia.
    - destruct (string_dec x u); lia. }
  destruct (string_dec x u); lia.
Qed.

(** C7: a URL that occurs N >= 1 times in [allLinks] occurs once in
    [uniqueLinksToCheck], so one request is issued for it, and [brokenLinks]
    has at most one record whose [url] is that URL. *)
Theorem C7_duplicates_checked_once (net : string -> NetReply) (allLinks : list string)
        (u : string) :
  1 <= count_occ string_dec allLinks u ->
  count_occ string_dec (uniqueLinksToCheck allLinks) u = 1
  /\ count_occ string_dec (requestsIssued (launch (uniqueLinksToCheck allLinks))) u = 1
  /\ length (filter (fun e => Js.strict_eq (entryUrl e) (Some u)) (verifyLinks net allLinks))
     <= 1.
Proof.
  intros HN.
  assert (Hin : In u allLinks) by (apply (count_occ_In string_dec); lia).
  pose proof (uniqueLinksToCheck_count allLinks u Hin) as H1.
  split; [exact H1|]. split.
  - now rewrite requestsIssued_launch.
  - unfold verifyLinks. rewrite collectBroken_flat_map, <- H1. apply records_of_link_le.
Qed.

Lemma C7_witness :
  let net := fun _ : string => Completed (mkResponse 404) in
  let allLinks := ["https://example.com/a"; "https://example.com/b"; "https://example.com/a"] in
  1 <= count_occ string_dec allLinks "https://example.com/a"
  /\ count_occ string_dec (requestsIssued (launch (uniqueLinksToCheck allLinks)))
       "https://example.com/a" = 1
  /\ length (filter (fun e => Js.strict_eq (entryUrl e) (Some "https://example.com/a"))
                    (verifyLinks net allLinks)) <= 1.
Proof.
  intros net allLinks.
  split; [vm_compute; lia|].
  apply (C7_duplicates_checked_once net allLinks "https://example.com/a").
  vm_compute. lia.
Defined.

(** ** The join *)

Section Join.

Variable net : string -> NetReply.

Lemma poolWith_ext (s s' : nat -> bool) (links : list string) (k : nat) :
  (forall j, k <= j -> s j = s' j) ->
  poolWith net s k links = poolWith net s' k links.
Proof.
  revert k; induction links as [|link rest IH]; intros k Hext; simpl; [reflexivity|].
  rewrite (Hext k (le_n k)). f_equal. apply IH. intros j Hj. apply Hext. lia.
Qed.

Lemma launch_poolWith (links : list string) (k : nat) :
  launch links = poolWith net (fun _ => false) k links.
Proof.
  revert k; induction links as [|link rest IH]; intros k; simpl; [reflexivity|].
  f_equal. apply IH.
Qed.

Lemma settleAt_poolWith (s : nat -> bool) (links : list string) (k i : nat) :
  settleAt net i (poolWith net s k links)
  = poolWith net (fun j => (j =? k + i)%nat || s j) k links.
Proof.
  revert k i; induction links as [|link rest IH]; intros k i; simpl; [reflexivity|].
  destruct i as [|i].
  - rewrite Nat.add_0_r, Nat.eqb_refl. simpl.
    destruct (s k); (f_equal; apply poolWith_ext; intros j Hj;
                     replace (j =? k)%nat with false by (symmetry; apply Nat.eqb_neq; lia);
                     reflexivity).
  - replace (k =? k + S i)%nat with false by (symmetry; apply Nat.eqb_neq; lia). simpl.
    f_equal. rewrite IH. apply poolWith_ext. intros j Hj.
    now replace (S k + i) with (k + S i) by lia.
Qed.

Lemma eventLoop_poolWith (arrivals : list nat) (s : nat -> bool) (links : list string) :
  eventLoop net arrivals (poolWith net s 0 links)
  = poolWith net (fun j => arrived arrivals j || s j) 0 links.
Proof.
  unfold eventLoop. revert s; induction arrivals as [|i arrivals IH]; intros s; simpl.
  - reflexivity.
  - rewrite settleAt_poolWith, IH. apply poolWith_ext. intros j _. simpl.
    unfold arrived. simpl. now rewrite orb_assoc, (orb_comm (existsb _ _)).
Qed.

Lemma eventLoop_launch (arrivals : list nat) (links : list string) :
  eventLoop net arrivals (launch links) = poolWith net (arrived arrivals) 0 links.
Proof.
  rewrite (launch_poolWith links 0), eventLoop_poolWith.
  apply poolWith_ext. intros j _. apply orb_false_r.
Qed.

Lemma requestsIssued_poolWith (s : nat -> bool) (links : list string) (k : nat) :
  requestsIssued (poolWith net s k links) = links.
Proof.
  unfold requestsIssued. revert k; induction links as [|link rest IH]; intros k; simpl;
    [reflexivity | now rewrite IH].
Qed.

Lemma allSettled_poolWith_none (s : nat -> bool) (links : list string) (k : nat) :
  allSettled (poolWith net s k links) = None
  <-> exists j, k <= j < k + length links /\ s j = false.
Proof.
  revert k; induction links as [|link rest IH]; intros k; simpl.
  - split; [discriminate | intros [j [Hj _]]; lia].
  - destruct (s k) eqn:Ek.
    + specialize (IH (S k)).
      destruct (allSettled (poolWith net s (S k) rest)) as [rs|].
      * split; [discriminate|]. intros [j [Hj Hs]].
        assert (Hjk : j <> k) by congruence.
        enough (Some rs = None) by discriminate.
        apply IH. exists j. split; [lia | exact Hs].
      * split; [|reflexivity]. intros _.
        destruct (proj1 IH eq_refl) as [j [Hj Hs]]. exists j. split; [lia | exact Hs].
    + split; [|reflexivity]. intros _. exists k. split; [lia | exact Ek].
Qed.

Lemma allSettled_poolWith_some (s : nat -> bool) (links : list string) (k : nat)
      (rs : list (Settled (option BrokenLink))) :
  allSettled (poolWith net s k links) = Some rs -> rs = linkCheckResults net links.
Proof.
  revert k rs; induction links as [|link rest IH]; intros k rs; simpl.
  - now intros [= <-].
  - destruct (s k); [|discriminate].
    destruct (allSettled (poolWith net s (S k) rest)) as [rs'|] eqn:E; [|discriminate].
    intros [= <-]. f_equal. now apply (IH (S k)).
Qed.

Lemma allSettled_pending (pool : Pool) :
  pendingCount pool = 0 <-> allSettled pool <> None.
Proof.
  unfold pendingCount. induction pool as [|[link [|r]] pool IH]; simpl.
  - split; [discriminate | reflexivity].
  - split; [discriminate | congruence].
  - rewrite IH. destruct (allSettled pool); split; congruence.
Qed.

Lemma arrived_In (arrivals : list nat) (i : nat) :
  arrived arrivals i = true <-> In i arrivals.
Proof.
  unfold arrived. rewrite existsb_exists. split.
  - intros [j [Hj E]]. apply Nat.eqb_eq in E. now subst.
  - intros H. exists i. split; [exact H | apply Nat.eqb_refl].
Qed.

Lemma arrived_not_In (arrivals : list nat) (i : nat) :
  arrived arrivals i = false <-> ~ In i arrivals.
Proof.
  rewrite <- arrived_In. destruct (arrived arrivals i); split; congruence.
Qed.

Lemma linkCheckResults_fulfilled (links : list string) :
  Forall (fun r => exists value, r = Fulfilled value) (linkCheckResults net links).
Proof.
  apply Forall_forall. intros r Hr. apply in_map_iff in Hr.
  destruct Hr as [link [<- _]]. apply linkCheck_fulfilled.
Qed.

End Join.

(** C1: the verification phase issues one request per distinct link of
    [allLinks] and keeps one promise per request, whatever answers arrive and
    in whatever order.  [Promise.allSettled] resolves only when no promise is
    pending, it stays unresolved exactly while the answer of some link has
    not arrived, and it resolves once every answer has arrived; its result
    has one outcome per link, in the order of the links, and the outcome of a
    link depends on the answer to that link alone.  Every outcome is a
    fulfilment, never a rejection, so [brokenLinks] holds records only and
    nothing is thrown. *)
Theorem C1_every_link_settles_and_nothing_is_thrown
        (net : string -> NetReply) (allLinks : list string) (arrivals : list nat) :
  let links := uniqueLinksToCheck allLinks in
  let pool := eventLoop net arrivals (launch links) in
  (forall u, In u allLinks -> count_occ string_dec (requestsIssued pool) u = 1)
  /\ requestsIssued pool = links
  /\ (forall rs, allSettled pool = Some rs ->
                 pendingCount pool = 0 /\ rs = linkCheckResults net links)
  /\ (allSettled pool = None <-> exists i, i < length links /\ ~ In i arrivals)
  /\ ((forall i, i < length links -> In i arrivals) ->
      allSettled pool = Some (linkCheckResults net links))
  /\ length (linkCheckResults net links) = length links
  /\ (forall net' i link,
         nth_error links i = Some link -> net' link = net link ->
         nth_error (linkCheckResults net' links) i = Some (linkCheck link (net link)))
  /\ Forall (fun r => exists value, r = Fulfilled value) (linkCheckResults net links)
  /\ Forall (fun e => exists b, e = Record_ b) (verifyLinks net allLinks).
Proof.
  intros links pool.
  assert (Hpool : pool = poolWith net (arrived arrivals) 0 links)
    by apply eventLoop_launch.
  assert (Hreq : requestsIssued pool = links)
    by (rewrite Hpool; apply requestsIssued_poolWith).
  assert (Hnone : allSettled pool = None <-> exists i, i < length links /\ ~ In i arrivals).
  { rewrite Hpool, allSettled_poolWith_none. split; intros [j [Hj Hs]]; exists j.
    - split; [lia | now apply arrived_not_In].
    - split; [lia | now apply arrived_not_In]. }
  split; [|split; [|split; [|split; [|split; [|split; [|split; [|split]]]]]]].
  - intros u Hu. rewrite Hreq. now apply uniqueLinksToCheck_count.
  - exact Hreq.
  - intros rs Hrs. split.
    + apply allSettled_pending. congruence.
    + rewrite Hpool in Hrs. now apply allSettled_poolWith_some in Hrs.
  - exact Hnone.
  - intros Hall. destruct (allSettled pool) as [rs|] eqn:E.
    + f_equal. rewrite Hpool in E. now apply allSettled_poolWith_some in E.
    + destruct (proj1 Hnone eq_refl) as [i [Hi Hni]]. exfalso. apply Hni, Hall, Hi.
  - unfold linkCheckResults. apply length_map.
  - intros net' i link Hnth Hnet. unfold linkCheckResults.
    rewrite nth_error_map, Hnth. simpl. now rewrite Hnet.
  - apply linkCheckResults_fulfilled.
  - apply Forall_forall. intros e He. apply verifyLinks_entries in He.
    destruct He as [b [-> _]]. now exists b.
Qed.

(** ** The port in the origin test *)

Lemma eachAnchor_external {U : UrlParser} (parsedUrl : UrlObject) (st : LinkLists)
      (el : Anchor) (rawHref absoluteHref : string) (parsedHref : UrlObject) :
  href el = Some rawHref ->
  rawHref <> "" ->
  resolve (baseUrl parsedUrl) rawHref = Some absoluteHref ->
  parse absoluteHref = Some parsedHref ->
  sameOrigin parsedHref parsedUrl = false ->
  eachAnchor parsedUrl st el
  = pushClassified (pushAll st absoluteHref)
      (if relUnfollowed (Js.or_default (rel el) "") then ExternalNofollow
       else ExternalDofollow) absoluteHref.
Proof.
  intros Hh Hne Hr Hp Hext.
  rewrite (eachAnchor_resolved parsedUrl st el rawHref absoluteHref parsedHref Hh Hne Hr Hp).
  unfold classify. now rewrite Hext.
Qed.

Section NodeUrlFacts.

Import NodeUrl.

Lemma scheme_char_not_colon (c : ascii) :
  is_scheme_char c = true -> (c =? ":")%char = false.
Proof.
  intros H. destruct (Ascii.eqb_spec c ":") as [->|]; [discriminate H | reflexivity].
Qed.

Lemma hostname_char_not_end (c : ascii) :
  is_hostname_char c = true -> is_host_end c = false.
Proof.
  intros H. unfold is_host_end.
  destruct (Ascii.eqb_spec c "/") as [->|]; [discriminate H|].
  destruct (Ascii.eqb_spec c "?") as [->|]; [discriminate H|].
  destruct (Ascii.eqb_spec c "#") as [->|]; [discriminate H | reflexivity].
Qed.

Lemma digit_not_end (c : ascii) : is_digit c = true -> is_host_end c = false.
Proof.
  intros H. apply hostname_char_not_end. unfold is_hostname_char.
  rewrite H. now rewrite !orb_true_r.
Qed.

Lemma scheme_split_app (scheme rest : string) :
  string_forallb is_scheme_char scheme = true ->
  scheme_split (scheme ++ String ":" rest) = Some (scheme, rest).
Proof.
  induction scheme as [|c scheme IH]; simpl; intros H; [reflexivity|].
  apply andb_true_iff in H. destruct H as [Hc Hs].
  now rewrite (scheme_char_not_colon c Hc), Hc, (IH Hs).
Qed.

Lemma protocol_split_app (scheme rest : string) :
  scheme <> "" ->
  string_forallb is_scheme_char scheme = true ->
  protocol_split (scheme ++ String ":" rest) = Some ((toLowerCase scheme ++ ":")%string, rest).
Proof.
  intros Hne Hs. unfold protocol_split. rewrite (scheme_split_app scheme rest Hs).
  destruct scheme; [contradiction | reflexivity].
Qed.

Lemma take_host_app (h tail : string) :
  string_forallb (fun c => negb (is_host_end c)) h = true ->
  (tail = "" \/ exists c t, tail = String c t /\ is_host_end c = true) ->
  take_host (h ++ tail) = h.
Proof.
  intros Hh Ht. induction h as [|c h IH]; simpl in *.
  - destruct Ht as [->|[c [t [-> Hc]]]]; simpl; [reflexivity | now rewrite Hc].
  - apply andb_true_iff in Hh. destruct Hh as [Hc Hh].
    apply negb_true_iff in Hc. rewrite Hc. f_equal. now apply IH.
Qed.

Lemma string_forallb_app (f : ascii -> bool) (a b : string) :
  string_forallb f (a ++ b) = string_forallb f a && string_forallb f b.
Proof.
  induction a as [|c a IH]; simpl; [reflexivity|]. now rewrite IH, andb_assoc.
Qed.

Lemma string_forallb_impl (f g : ascii -> bool) (s : string) :
  (forall c, f c = true -> g c = true) ->
  string_forallb f s = true -> string_forallb g s = true.
Proof.
  intros Hfg. induction s as [|c s IH]; simpl; [reflexivity|].
  intros H. apply andb_true_iff in H. destruct H as [Hc Hs].
  now rewrite (Hfg c Hc), (IH Hs).
Qed.

Lemma toLowerCase_length (s : string) : String.length (toLowerCase s) = String.length s.
Proof. induction s as [|c s IH]; simpl; [reflexivity | now rewrite IH]. Qed.

Lemma append_empty_r (a : string) : (a ++ "")%string = a.
Proof. induction a as [|c a IH]; simpl; [reflexivity | now rewrite IH]. Qed.

Lemma append_assoc (a b c : string) : ((a ++ b) ++ c)%string = (a ++ b ++ c)%string.
Proof. induction a as [|x a IH]; simpl; [reflexivity | now rewrite IH]. Qed.

Lemma append_length (a b : string) :
  String.length (a ++ b) = String.length a + String.length b.
Proof. induction a as [|c a IH]; simpl; [reflexivity | now rewrite IH]. Qed.

(** [url.parse] on [scheme://authority] followed by a path, a query or a
    fragment: [host] is the whole authority, port included, in lower case. *)
Lemma node_parse_authority (scheme authority tail : string) :
  scheme <> "" ->
  string_forallb is_scheme_char scheme = true ->
  string_forallb (fun c => negb (is_host_end c)) authority = true ->
  (tail = "" \/ exists c t, tail = String c t /\ is_host_end c = true) ->
  node_parse (scheme ++ "://" ++ authority ++ tail)
  = Some (mkUrlObject (Some (toLowerCase scheme ++ ":")%string)
                      (Some (toLowerCase authority))).
Proof.
  intros Hne Hs Ha Ht. unfold node_parse.
  change (scheme ++ "://" ++ authority ++ tail)%string
    with (scheme ++ String ":" ("//" ++ authority ++ tail))%string.
  rewrite (protocol_split_app _ _ Hne Hs). simpl.
  now rewrite (take_host_app authority tail Ha Ht).
Qed.

End NodeUrlFacts.

(** C8, as the specification words it, fails on its own example: on the page
    [http://example.com] the link [http://example.com:8080/page] does not go
    to [internalLinks]; it goes to [externalDofollowLinks]. *)
Lemma C8_counterexample_port_8080 :
  let lists := collectLinks (parsedUrlOf "http://example.com")
                 [mkAnchor (Some "http://example.com:8080/page") None] in
  host (parsedUrlOf "http://example.com") = Some "example.com"
  /\ parse "http://example.com:8080/page"
     = Some (mkUrlObject (Some "http:") (Some "example.com:8080"))
  /\ internalLinks lists = []
  /\ externalDofollowLinks lists = ["http://example.com:8080/page"].
Proof. repeat split. Qed.

(** C8, amended: the origin test compares [host], which under Node's [url]
    module includes an explicit port.  A link that differs from the analysed
    page only by an explicit port (and what follows the authority) is not
    pushed to [internalLinks]: it is classified external, unfollowed or
    followable according to its [rel] attribute. *)
Theorem C8_explicit_port_makes_link_external
        (scheme hostname port tail : string) (relAttr : option string) (st : LinkLists) :
  scheme <> "" ->
  NodeUrl.string_forallb NodeUrl.is_scheme_char scheme = true ->
  NodeUrl.string_forallb NodeUrl.is_hostname_char hostname = true ->
  port <> "" ->
  NodeUrl.string_forallb NodeUrl.is_digit port = true ->
  (tail = "" \/ exists c t, tail = String c t /\ NodeUrl.is_host_end c = true) ->
  let page := (scheme ++ "://" ++ hostname)%string in
  let link := (scheme ++ "://" ++ hostname ++ ":" ++ port ++ tail)%string in
  let st' := eachAnchor (parsedUrlOf page) st (mkAnchor (Some link) relAttr) in
  internalLinks st' = internalLinks st
  /\ exists absoluteHref,
       resolve (baseUrl (parsedUrlOf page)) link = Some absoluteHref
       /\ host (parsedUrlOf page) = Some (NodeUrl.toLowerCase hostname)
       /\ (exists parsedHref,
              parse absoluteHref = Some parsedHref
              /\ host parsedHref = Some (NodeUrl.toLowerCase (hostname ++ ":" ++ port)))
       /\ st' = pushClassified (pushAll st absoluteHref)
                  (if relUnfollowed (Js.or_default relAttr "") then ExternalNofollow
                   else ExternalDofollow) absoluteHref.
Proof.
  intros Hne Hs Hh Hpne Hp Ht page link st'.
  assert (Hh' : NodeUrl.string_forallb (fun c => negb (NodeUrl.is_host_end c)) hostname = true).
  { apply (string_forallb_impl NodeUrl.is_hostname_char); [|exact Hh].
    intros c Hc. now rewrite (hostname_char_not_end c Hc). }
  assert (Ha : NodeUrl.string_forallb (fun c => negb (NodeUrl.is_host_end c))
                 (hostname ++ ":" ++ port) = true).
  { rewrite string_forallb_app, Hh'. simpl.
    apply (string_forallb_impl NodeUrl.is_digit); [|exact Hp].
    intros c Hc. now rewrite (digit_not_end c Hc). }
  assert (Hpage : NodeUrl.node_parse page
                  = Some (mkUrlObject (Some (NodeUrl.toLowerCase scheme ++ ":")%string)
                                      (Some (NodeUrl.toLowerCase hostname)))).
  { pose proof (node_parse_authority scheme hostname "" Hne Hs Hh' (or_introl eq_refl)) as H.
    unfold page. now rewrite append_empty_r in H. }
  assert (Hlink : NodeUrl.node_parse link
                  = Some (mkUrlObject (Some (NodeUrl.toLowerCase scheme ++ ":")%string)
                                      (Some (NodeUrl.toLowerCase (hostname ++ ":" ++ port))))).
  { pose proof (node_parse_authority scheme (hostname ++ ":" ++ port) tail Hne Hs Ha Ht) as H.
    unfold link. rewrite <- H. f_equal.
    now rewrite !append_assoc. }
  assert (Hres : resolve (baseUrl (parsedUrlOf page)) link = Some link).
  { simpl. unfold NodeUrl.node_resolve, link.
    change (scheme ++ "://" ++ hostname ++ ":" ++ port ++ tail)%string
      with (scheme ++ String ":" ("//" ++ hostname ++ ":" ++ port ++ tail))%string.
    now rewrite (protocol_split_app _ _ Hne Hs). }
  assert (Hext : sameOrigin
                   (mkUrlObject (Some (NodeUrl.toLowerCase scheme ++ ":")%string)
                                (Some (NodeUrl.toLowerCase (hostname ++ ":" ++ port))))
                   (parsedUrlOf page) = false).
  { unfold parsedUrlOf. rewrite Hpage. unfold sameOrigin. simpl.
    apply andb_false_iff. right. apply String.eqb_neq. intros E.
    apply (f_equal String.length) in E.
    rewrite !toLowerCase_length, append_length in E. simpl in E.
    destruct port; [contradiction | simpl in E; lia]. }
  assert (Hlne : link <> "").
  { unfold link. destruct scheme; [contradiction | discriminate]. }
  assert (Hst : st' = pushClassified (pushAll st link)
                        (if relUnfollowed (Js.or_default relAttr "") then ExternalNofollow
                         else ExternalDofollow) link).
  { unfold st'.
    now apply (eachAnchor_external _ st (mkAnchor (Some link) relAttr) link link _
                 eq_refl Hlne Hres Hlink Hext). }
  split.
  - rewrite Hst. now destruct (relUnfollowed (Js.or_default relAttr "")).
  - exists link. split; [exact Hres|]. split.
    + unfold parsedUrlOf. now rewrite Hpage.
    + split; [|exact Hst]. eexists. split; [exact Hlink | reflexivity].
Qed.

Lemma C8_witness :
  let page := "http://example.com" in
  let link := "http://example.com:8080/page" in
  "http" <> ""
  /\ "8080" <> ""
  /\ internalLinks (eachAnchor (parsedUrlOf page) noLinks (mkAnchor (Some link) None))
     = internalLinks noLinks.
Proof.
  intros page link.
  split; [discriminate|]. split; [discriminate|].
  apply (C8_explicit_port_makes_link_external "http" "example.com" "8080" "/page" None noLinks);
    try reflexivity; try discriminate.
  right. exists "/"%char, "page". split; reflexivity.
Defined.


(** * Further properties of the handler *)

(** ** The traversal as a whole *)



Section TraversalWhole.

Context {U : UrlParser}.
Variable parsedUrl : UrlObject.

Lemma appendLinkLists_noLinks_l (a : LinkLists) : appendLinkLists noLinks a = a.
Proof. now destruct a. Qed.

Lemma appendLinkLists_assoc (a b c : LinkLists) :
  appendLinkLists (appendLinkLists a b) c = appendLinkLists a (appendLinkLists b c).
Proof. unfold appendLinkLists. simpl. now rewrite <- !app_assoc. Qed.

Lemma eachAnchor_append (st : LinkLists) (el : Anchor) :
  eachAnchor parsedUrl st el = appendLinkLists st (eachAnchor parsedUrl noLinks el).
Proof.
  assert (Hid : st = appendLinkLists st noLinks).
  { destruct st. unfold appendLinkLists. simpl. now rewrite !app_nil_r. }
  unfold eachAnchor. destruct (href el) as [rawHref|]; [|exact Hid].
  destruct (rawHref =? ""); [exact Hid|].
  destruct (resolve (baseUrl parsedUrl) rawHref) as [absoluteHref|]; [|exact Hid].
  destruct (parse absoluteHref) as [parsedHref|].
  - destruct (classify parsedHref parsedUrl (Js.or_default (rel el) ""));
      destruct st; unfold appendLinkLists, pushClassified, pushAll, Js.push; simpl;
      now rewrite ?app_nil_r.
  - destruct st. unfold appendLinkLists, pushAll, Js.push. simpl. now rewrite ?app_nil_r.
Qed.

Lemma fold_eachAnchor_append (anchors : list Anchor) (st : LinkLists) :
  fold_left (eachAnchor parsedUrl) anchors st
  = appendLinkLists st (fold_left (eachAnchor parsedUrl) anchors noLinks).
Proof.
  revert st; induction anchors as [|el anchors IH]; intros st; simpl.
  - destruct st. unfold appendLinkLists. simpl. now rewrite !app_nil_r.
  - rewrite (IH (eachAnchor parsedUrl st el)), (IH (eachAnchor parsedUrl noLinks el)).
    rewrite (eachAnchor_append st el). apply appendLinkLists_assoc.
Qed.

Lemma collectLinks_snoc (anchors : list Anchor) (el : Anchor) :
  collectLinks parsedUrl (anchors ++ [el])
  = eachAnchor parsedUrl (collectLinks parsedUrl anchors) el.
Proof. unfold collectLinks. now rewrite fold_left_app. Qed.

End TraversalWhole.

Lemma perm_push_classified (x : string) (all i d n : list string) :
  Permutation all (i ++ d ++ n) ->
  Permutation (all ++ [x]) ((i ++ [x]) ++ d ++ n)
  /\ Permutation (all ++ [x]) (i ++ (d ++ [x]) ++ n)
  /\ Permutation (all ++ [x]) (i ++ d ++ n ++ [x]).
Proof.
  intros H.
  assert (Hx : Permutation (all ++ [x]) (x :: i ++ d ++ n)).
  { etransitivity; [symmetry; apply Permutation_cons_append|]. now apply perm_skip. }
  split; [|split]; (etransitivity; [exact Hx|]).
  - rewrite <- app_assoc. simpl. apply Permutation_middle.
  - rewrite <- (app_assoc d). simpl. rewrite !(app_assoc i d). apply Permutation_middle.
  - rewrite !app_assoc. apply Permutation_cons_append.
Qed.

(** X1: the traversal is compositional.  The four arrays of a page whose
    anchors are [a] followed by [b] are the arrays of [a] followed, array by
    array, by the arrays of [b]: what an anchor contributes depends neither
    on the anchors before it nor on those after it, and order and
    repetitions are kept. *)
Theorem X1_collectLinks_app {U : UrlParser} (parsedUrl : UrlObject) (a b : list Anchor) :
  collectLinks parsedUrl (a ++ b)
  = appendLinkLists (collectLinks parsedUrl a) (collectLinks parsedUrl b).
Proof.
  unfold collectLinks. rewrite fold_left_app. apply fold_eachAnchor_append.
Qed.

(** X2: every link reported in [internalLinks], [externalDofollowLinks] or
    [externalNofollowLinks] is in [allLinks], hence among the links that get
    verified; the three arrays together are no longer than [allLinks], which
    is no longer than the number of anchors.  When [parse] throws on none of
    the resolved links, [allLinks] is the three arrays taken together, up to
    order. *)
Theorem X2_classified_links_are_verified {U : UrlParser} (parsedUrl : UrlObject)
        (anchors : list Anchor) :
  let links := collectLinks parsedUrl anchors in
  (forall x, In x (internalLinks links) \/ In x (externalDofollowLinks links)
             \/ In x (externalNofollowLinks links) ->
             In x (uniqueLinksToCheck (allLinks links)))
  /\ length (internalLinks links) + length (externalDofollowLinks links)
     + length (externalNofollowLinks links) <= length (allLinks links)
  /\ length (allLinks links) <= length anchors
  /\ ((forall s, parse s <> None) ->
      Permutation (allLinks links)
        (internalLinks links ++ externalDofollowLinks links ++ externalNofollowLinks links)).
Proof.
  intros links. subst links.
  induction anchors as [|el anchors IH] using rev_ind.
  - simpl. split; [|split; [|split]]; [intros x [[]|[[]|[]]] | lia | lia | intros _; constructor].
  - rewrite (collectLinks_snoc parsedUrl anchors el).
    destruct IH as [Hin [Hsum [Hlen Hperm]]].
    set (st := collectLinks parsedUrl anchors) in *.
    assert (Hin' : forall x, In x (internalLinks st) \/ In x (externalDofollowLinks st)
                             \/ In x (externalNofollowLinks st) -> In x (allLinks st)).
    { intros x Hx. now apply uniqueLinksToCheck_In, Hin. }
    rewrite length_app. simpl.
    unfold eachAnchor.
    destruct (href el) as [rawHref|];
      [|split; [|split; [|split]]; [exact Hin | lia | lia | exact Hperm]].
    destruct (rawHref =? "");
      [split; [|split; [|split]]; [exact Hin | lia | lia | exact Hperm]|].
    destruct (resolve (baseUrl parsedUrl) rawHref) as [absoluteHref|];
      [|split; [|split; [|split]]; [exact Hin | lia | lia | exact Hperm]].
    destruct (parse absoluteHref) as [parsedHref|] eqn:Hparse.
    + destruct (classify parsedHref parsedUrl (Js.or_default (rel el) ""));
        simpl; unfold Js.push; rewrite ?length_app; simpl;
        (split; [|split; [lia|split; [lia|]]]).
      * intros x Hx. apply uniqueLinksToCheck_In. rewrite !in_app_iff in *. simpl.
        destruct Hx as [[Hx|Hx]|[Hx|Hx]]; auto 6.
      * intros Htot. now apply perm_push_classified, Hperm.
      * intros x Hx. apply uniqueLinksToCheck_In. rewrite !in_app_iff in *. simpl.
        destruct Hx as [Hx|[[Hx|Hx]|Hx]]; auto 6.
      * intros Htot. now apply perm_push_classified, Hperm.
      * intros x Hx. apply uniqueLinksToCheck_In. rewrite !in_app_iff in *. simpl.
        destruct Hx as [Hx|[Hx|[Hx|Hx]]]; auto 6.
      * intros Htot. now apply perm_push_classified, Hperm.
    + simpl. unfold Js.push. rewrite length_app. simpl.
      split; [|split; [lia|split; [lia|]]].
      * intros x Hx. apply uniqueLinksToCheck_In. rewrite in_app_iff. left. now apply Hin'.
      * intros Htot. exfalso. now apply (Htot absoluteHref).
Qed.

(** ** The set of links and the order of [brokenLinks] *)

Lemma set_add_absent (seen : list string) (x : string) :
  ~ In x seen -> Js.set_add seen x = seen ++ [x].
Proof.
  intros H. unfold Js.set_add. destruct (existsb (String.eqb x) seen) eqn:E; [|reflexivity].
  exfalso. apply H. apply existsb_exists in E. destruct E as [y [Hy E]].
  apply String.eqb_eq in E. now subst.
Qed.

Lemma set_add_present (seen : list string) (x : string) :
  In x seen -> Js.set_add seen x = seen.
Proof.
  intros H. unfold Js.set_add. destruct (existsb (String.eqb x) seen) eqn:E; [reflexivity|].
  assert (existsb (String.eqb x) seen = true); [|congruence].
  apply existsb_exists. exists x. split; [exact H | apply String.eqb_refl].
Qed.

(** Starting the set from [seen] gives [seen] followed by the new elements,
    in the order the empty set would have taken them. *)
Lemma fold_set_add_from (arr seen : list string) :
  fold_left Js.set_add arr seen
  = seen ++ filter (fun y => negb (existsb (String.eqb y) seen)) (fold_left Js.set_add arr []).
Proof.
  induction arr as [|x arr IH] using rev_ind.
  - simpl. now rewrite app_nil_r.
  - rewrite !fold_left_app. simpl. rewrite IH.
    set (base := fold_left Js.set_add arr []) in *.
    set (keep := fun y => negb (existsb (String.eqb y) seen)).
    destruct (in_dec string_dec x base) as [Hb|Hb].
    + rewrite (set_add_present base x Hb).
      apply set_add_present. rewrite in_app_iff, filter_In.
      destruct (existsb (String.eqb x) seen) eqn:E.
      * left. apply existsb_exists in E. destruct E as [y [Hy E]].
        apply String.eqb_eq in E. now subst.
      * right. split; [exact Hb|]. unfold keep. now rewrite E.
    + rewrite (set_add_absent base x Hb), filter_app. simpl.
      assert (Hk : keep x = negb (existsb (String.eqb x) seen)) by reflexivity.
      rewrite Hk. destruct (existsb (String.eqb x) seen) eqn:E; simpl.
      * rewrite app_nil_r. apply set_add_present. rewrite in_app_iff. left.
        apply existsb_exists in E. destruct E as [y [Hy E]].
        apply String.eqb_eq in E. now subst.
      * rewrite app_assoc. apply set_add_absent. rewrite in_app_iff, filter_In.
        intros [H|[H _]]; [|contradiction].
        assert (existsb (String.eqb x) seen = true); [|congruence].
        apply existsb_exists. exists x. split; [exact H | apply String.eqb_refl].
Qed.

Lemma uniqueLinksToCheck_cons (x : string) (allLinks : list string) :
  uniqueLinksToCheck (x :: allLinks)
  = x :: filter (fun y => negb (y =? x)) (uniqueLinksToCheck allLinks).
Proof.
  unfold uniqueLinksToCheck, Js.set_of_array. simpl.
  rewrite (fold_set_add_from allLinks (Js.set_add [] x)). simpl.
  f_equal. apply filter_ext. intros y. now rewrite orb_false_r.
Qed.

Lemma filter_all {A : Type} (f : A -> bool) (l : list A) :
  (forall y, In y l -> f y = true) -> filter f l = l.
Proof.
  induction l as [|a l IH]; simpl; intros H; [reflexivity|].
  rewrite (H a (or_introl eq_refl)). f_equal. apply IH. intros y Hy. apply H. now right.
Qed.

Lemma uniqueLinksToCheck_NoDup_id (links : list string) :
  NoDup links -> uniqueLinksToCheck links = links.
Proof.
  induction links as [|x links IH]; intros Hnd; [reflexivity|].
  inversion Hnd as [|? ? Hx Hnd']; subst.
  rewrite uniqueLinksToCheck_cons, (IH Hnd'). f_equal.
  apply filter_all. intros y Hy. apply negb_true_iff, String.eqb_neq. congruence.
Qed.

(** X3: [[...new Set(allLinks)]] keeps the first occurrence of every link, in
    order: the links to check of [x :: rest] are [x] followed by the links to
    check of [rest] without [x].  On an array without repetition it is the
    identity, so applying it twice changes nothing, and it never makes the
    array longer. *)
Theorem X3_set_keeps_first_occurrences (allLinks : list string) :
  (forall x, uniqueLinksToCheck (x :: allLinks)
             = x :: filter (fun y => negb (y =? x)) (uniqueLinksToCheck allLinks))
  /\ (NoDup allLinks -> uniqueLinksToCheck allLinks = allLinks)
  /\ uniqueLinksToCheck (uniqueLinksToCheck allLinks) = uniqueLinksToCheck allLinks
  /\ length (uniqueLinksToCheck allLinks) <= length allLinks.
Proof.
  split; [|split; [|split]].
  - intros x. apply uniqueLinksToCheck_cons.
  - apply uniqueLinksToCheck_NoDup_id.
  - apply uniqueLinksToCheck_NoDup_id, uniqueLinksToCheck_NoDup.
  - apply NoDup_incl_length; [apply uniqueLinksToCheck_NoDup|].
    intros y Hy. now apply uniqueLinksToCheck_In.
Qed.

Lemma pushResult_brokenRecord (net : string -> NetReply) (link : string) :
  pushResult [] (linkCheck link (net link))
  = match brokenRecord net link with
    | Some b => [Record_ b]
    | None => []
    end.
Proof.
  unfold brokenRecord.
  destruct (linkCheck_fulfilled link (net link)) as [[b|] Hv]; rewrite Hv; reflexivity.
Qed.

Lemma brokenRecord_url (net : string -> NetReply) (link : string) (b : BrokenLink) :
  brokenRecord net link = Some b -> url b = link.
Proof.
  unfold brokenRecord. intros H.
  destruct (linkCheck link (net link)) as [v|e] eqn:E; [|discriminate].
  subst v. now apply linkCheck_record in E.
Qed.

Lemma broken_urls (net : string -> NetReply) (links : list string) :
  map entryUrl (flat_map (pushResult []) (linkCheckResults net links))
  = map Some (filter (isBroken net) links).
Proof.
  induction links as [|link links IH]; simpl; [reflexivity|].
  rewrite map_app, IH, pushResult_brokenRecord. unfold isBroken.
  destruct (brokenRecord net link) as [b|] eqn:E; simpl; [|reflexivity].
  now rewrite (brokenRecord_url net link b E).
Qed.

(** X4: [brokenLinks] lists the links whose check returned a record, each
    once, in the order of their first occurrence on the page: the [url]s of
    its elements are the links to check that are broken, in order.  So no
    URL is reported twice, every reported URL is a link of the page, and
    there are at most as many elements as distinct links. *)
Theorem X4_brokenLinks_follow_page_order (net : string -> NetReply)
        (allLinks : list string) :
  let brokenLinks := verifyLinks net allLinks in
  map entryUrl brokenLinks
  = map Some (filter (isBroken net) (uniqueLinksToCheck allLinks))
  /\ NoDup (map entryUrl brokenLinks)
  /\ (forall e, In e brokenLinks -> exists b, e = Record_ b /\ In (url b) allLinks)
  /\ length brokenLinks <= length (uniqueLinksToCheck allLinks).
Proof.
  intros brokenLinks.
  assert (Hurls : map entryUrl brokenLinks
                  = map Some (filter (isBroken net) (uniqueLinksToCheck allLinks))).
  { unfold brokenLinks, verifyLinks. rewrite collectBroken_flat_map. apply broken_urls. }
  split; [exact Hurls|]. split; [|split].
  - rewrite Hurls. apply Finite.Injective_map_NoDup; [intros a b H; congruence|].
    apply NoDup_filter, uniqueLinksToCheck_NoDup.
  - intros e He. apply verifyLinks_entries in He.
    destruct He as [b [-> [Hin _]]]. now exists b.
  - rewrite <- (length_map entryUrl), Hurls, length_map. apply filter_length_le.
Qed.

(** ** Every outcome of a check *)

Ltac decide_Z :=
  repeat match goal with
         | |- context [(?a <=? ?b)%Z] =>
             let E := fresh "E" in
             destruct (Z.leb_spec a b) as [E|E]; try lia
         | |- context [(?a <? ?b)%Z] =>
             let E := fresh "E" in
             destruct (Z.ltb_spec a b) as [E|E]; try lia
         | |- context [(?a =? ?b)%Z] =>
             let E := fresh "E" in
             destruct (Z.eqb_spec a b) as [E|E]; try lia
         end.

(** X5: the outcome of a check that ends with a response is decided by the
    length of the body and, within the cap, by the status.  A body longer
    than [maxContentLength] gives, whatever the status, a Network Issue
    record with the label ['Axios Request Error: ERR_BAD_RESPONSE'].  Within
    the cap, status 0 and the statuses of [200, 400) give no record;
    [400, 500) gives a Client Error record; 500 and above gives a Server
    Error record; any other status (below 200 and not 0) is rejected by
    [validateStatus] and comes out as a Network Issue record that carries
    the numeric status. *)
Theorem X5_status_decides_outcome (link : string) (r : Response) :
  let s := statusCode r in
  let outcome := linkCheck link (Completed r) in
  linkCheck link (Oversized r)
  = Fulfilled (Some (mkBrokenLink link (StatusText "Axios Request Error: ERR_BAD_RESPONSE")
                       "Network Issue"))
  /\ (s = 0%Z \/ (200 <= s < 400)%Z -> outcome = Fulfilled None)
  /\ ((400 <= s < 500)%Z ->
      outcome = Fulfilled (Some (mkBrokenLink link (StatusCode s) "Client Error")))
  /\ ((500 <= s)%Z ->
      outcome = Fulfilled (Some (mkBrokenLink link (StatusCode s) "Server Error")))
  /\ ((s < 200)%Z -> s <> 0%Z ->
      outcome = Fulfilled (Some (mkBrokenLink link (StatusCode s) "Network Issue"))).
Proof.
  intros s outcome. subst s outcome. split; [reflexivity|].
  unfold linkCheck, axios_get, validateStatus, thenHandler, catchHandler, catchDetail.
  repeat split; intros; decide_Z; simpl; decide_Z; reflexivity.
Qed.

(** X6: a rejection that carries a response is classified by the status of
    that response alone.  For a status in [400, 500) the [catch] handler
    builds the very record the [then] handler builds for an accepted
    response, so the two paths agree; for a status below 400 it builds a
    Network Issue record with the numeric status, where the [then] handler
    returns [null]. *)
Theorem X6_rejected_response_by_status (link : string) (r : Response) (request : bool)
        (code message : option string) :
  let s := statusCode r in
  let caught := catchHandler link (AxiosError (Some r) request code message) in
  ((400 <= s < 500)%Z -> caught = thenHandler link r)
  /\ ((s < 400)%Z ->
      caught = Some (mkBrokenLink link (StatusCode s) "Network Issue")
      /\ thenHandler link r = None)
  /\ (exists t, caught = Some (mkBrokenLink link (StatusCode s) t)
                /\ In t ["Server Error"; "Client Error"; "Network Issue"]).
Proof.
  intros s caught. subst s caught. unfold catchHandler, catchDetail, thenHandler.
  split; [|split].
  - intros H. decide_Z. reflexivity.
  - intros H. decide_Z. simpl. split; reflexivity.
  - decide_Z; simpl; eexists; (split; [reflexivity|]); simpl; auto.
Qed.

Lemma categoryOfType_handlerTypes (t : string) :
  In t handlerTypes ->
  exists c, categoryOfType t = Some c /\ c <> Reachable.
Proof.
  unfold handlerTypes. simpl.
  intros [<-|[<-|[<-|[<-|[<-|[]]]]]]; eexists; (split; [reflexivity | discriminate]).
Qed.

(** X7: the taxonomy is closed.  Whatever the world answers, the chain of a
    link fulfils with a value that has exactly one of the six categories of
    the specification, and the category is Reachable exactly when the value
    is [null], that is, when no record is pushed. *)
Theorem X7_every_outcome_has_a_category (link : string) (reply : NetReply) :
  exists value c,
    linkCheck link reply = Fulfilled value
    /\ outcomeCategory value = Some c
    /\ (c = Reachable <-> value = None)
    /\ (c = Reachable <-> pushResult [] (linkCheck link reply) = []).
Proof.
  destruct (linkCheck_fulfilled link reply) as [[b|] Hv].
  - destruct (linkCheck_record _ _ _ Hv) as [_ Ht].
    destruct (categoryOfType_handlerTypes _ Ht) as [c [Hc Hne]].
    exists (Some b), c. rewrite Hv. simpl.
    repeat split; try exact Hc; try contradiction; discriminate.
  - exists None, Reachable. rewrite Hv. simpl. repeat split.
Qed.

(** ** Strings *)

Lemma jsLength_positive (s : string) : s <> "" -> 1 <= JsString.jsLength s.
Proof.
  destruct s as [|c r]; [contradiction|]. intros _.
  unfold JsString.jsLength. simpl. unfold JsString.unitsOfLead.
  destruct ((240 <=? nat_of_ascii c)%nat && (nat_of_ascii c <? 248)%nat); lia.
Qed.

Lemma jsLength_zero (s : string) : JsString.jsLength s = 0 <-> s = "".
Proof.
  split; [|intros ->; reflexivity].
  intros H. destruct (string_dec s "") as [E|E]; [exact E|].
  apply jsLength_positive in E. lia.
Qed.

Lemma or_default_nonempty (v : option string) (d : string) :
  d <> "" -> Js.or_default v d <> "".
Proof.
  intros Hd. destruct v as [s|]; simpl; [|exact Hd].
  destruct (s =? "") eqn:E; [exact Hd | now apply String.eqb_neq].
Qed.

Lemma or_default_truthy (v : option string) (d s : string) :
  v = Some s -> s <> "" -> Js.or_default v d = s.
Proof.
  intros -> Hs. simpl. apply String.eqb_neq in Hs. now rewrite Hs.
Qed.

Lemma trimStart_white (a : string) :
  NodeUrl.string_forallb JsString.isWs1 a = true -> JsString.trimStart a = "".
Proof.
  induction a as [|c a IH]; simpl; [reflexivity|].
  intros H. apply andb_true_iff in H. destruct H as [Hc Ha]. rewrite Hc. now apply IH.
Qed.

Lemma trim_white (a : string) :
  NodeUrl.string_forallb JsString.isWs1 a = true -> JsString.trim a = "".
Proof.
  intros H. unfold JsString.trim. now rewrite (trimStart_white a H).
Qed.

(** ** Title and description *)

Lemma titleOf_jsLength (head : Head) : 1 <= JsString.jsLength (titleOf head).
Proof. apply jsLength_positive, or_default_nonempty. discriminate. Qed.

(** X8: the title and the description sent back are never empty.  A page
    whose [title] text is empty gets the title ['No title'], which counts at
    least one code unit; the description is the first non-empty [content]
    of the four [meta] selectors, in their order, and ['No description']
    when all four are missing or empty. *)
Theorem X8_title_and_description_defaults (head : Head) :
  titleOf head <> ""
  /\ 1 <= JsString.jsLength (titleOf head)
  /\ metaDescriptionOf head <> ""
  /\ (titleText head = "" -> titleOf head = "No title")
  /\ (titleText head <> "" -> titleOf head = titleText head)
  /\ (Js.truthy (metaNameDescription head) = false ->
      Js.truthy (metaNameDescriptionCapital head) = false ->
      Js.truthy (metaPropertyOgDescription head) = false ->
      Js.truthy (metaNameOgDescription head) = false ->
      metaDescriptionOf head = "No description")
  /\ (forall d, d <> "" ->
        (metaNameDescription head = Some d
         \/ (Js.truthy (metaNameDescription head) = false
             /\ (metaNameDescriptionCapital head = Some d
                 \/ (Js.truthy (metaNameDescriptionCapital head) = false
                     /\ (metaPropertyOgDescription head = Some d
                         \/ (Js.truthy (metaPropertyOgDescription head) = false
                             /\ metaNameOgDescription head = Some d)))))) ->
        metaDescriptionOf head = d).
Proof.
  assert (Ht : titleOf head <> "") by (apply or_default_nonempty; discriminate).
  assert (Htruthy : forall d, d <> "" -> Js.truthy (Some d) = true).
  { intros d Hd. simpl. apply String.eqb_neq in Hd. now rewrite Hd. }
  split; [exact Ht|]. split; [now apply jsLength_positive|].
  split; [apply or_default_nonempty; discriminate|].
  split; [intros H; unfold titleOf; now rewrite H|].
  split; [intros H; unfold titleOf; now apply or_default_truthy|].
  split.
  - intros H1 H2 H3 H4. unfold metaDescriptionOf, Js.or_else.
    rewrite H1, H2, H3. apply truthy_false in H4. destruct H4 as [-> | ->]; reflexivity.
  - intros d Hd H. unfold metaDescriptionOf, Js.or_else.
    destruct H as [H|[H1 [H|[H2 [H|[H3 H]]]]]].
    + rewrite H, (Htruthy d Hd). now apply or_default_truthy.
    + rewrite H1, H, (Htruthy d Hd). now apply or_default_truthy.
    + rewrite H1, H2, H, (Htruthy d Hd). now apply or_default_truthy.
    + rewrite H1, H2, H3. now apply or_default_truthy.
Qed.

(** ** Images *)

Lemma collectImages_snoc (imgs : list Img) (el : Img) :
  collectImages (imgs ++ [el]) = eachImg (collectImages imgs) el.
Proof. unfold collectImages. now rewrite fold_left_app. Qed.

Lemma collectImages_spec (imgs : list Img) :
  imagesWithAlt (collectImages imgs) + imagesWithoutAlt (collectImages imgs) = length imgs
  /\ imagesWithAlt (collectImages imgs)
     = length (filter (fun el => hasAltOf (imgAlt el)) imgs)
  /\ imageData (collectImages imgs)
     = map imageEntryOf (filter (fun el => Js.truthy (imgSrc el)) imgs).
Proof.
  induction imgs as [|el imgs IH] using rev_ind; [repeat split|].
  rewrite collectImages_snoc. destruct IH as [Hsum [Hwith Hdata]].
  rewrite length_app, !filter_app, map_app, length_app. simpl.
  unfold eachImg. simpl. rewrite Hdata, Hwith.
  destruct (hasAltOf (imgAlt el)) eqn:Ealt; destruct (Js.truthy (imgSrc el)) eqn:Esrc;
    simpl; unfold Js.push, imageEntryOf; rewrite ?Ealt, ?app_nil_r;
    (split; [lia | split; [lia | reflexivity]]).
Qed.

(** X9: the image loop counts every [img] element once, as with or without
    alternative text, and [imageData] is, in document order, the entries of
    the images that have a non-empty [src].  So [totalImages] can be smaller
    than the two counters together: the difference is the number of images
    without [src]. *)
Theorem X9_image_counts (imgs : list Img) :
  let stats := collectImages imgs in
  imagesWithAlt stats + imagesWithoutAlt stats = length imgs
  /\ imagesWithAlt stats = length (filter (fun el => hasAltOf (imgAlt el)) imgs)
  /\ imageData stats = map imageEntryOf (filter (fun el => Js.truthy (imgSrc el)) imgs)
  /\ length (imageData stats)
     + length (filter (fun el => negb (Js.truthy (imgSrc el))) imgs)
     = imagesWithAlt stats + imagesWithoutAlt stats
  /\ Forall (fun e => src e <> "") (imageData stats).
Proof.
  intros stats. subst stats.
  pose proof (collectImages_spec imgs) as H.
  destruct H as [Hsum [Hwith Hdata]].
  split; [exact Hsum|]. split; [exact Hwith|]. split; [exact Hdata|]. split.
  - rewrite Hdata, length_map, Hsum. clear.
    induction imgs as [|el imgs IH]; simpl; [reflexivity|].
    destruct (Js.truthy (imgSrc el)); simpl; lia.
  - rewrite Hdata. apply Forall_forall. intros e He. apply in_map_iff in He.
    destruct He as [el [<- Hel]]. apply filter_In in Hel. destruct Hel as [_ Hsrc].
    simpl. destruct (imgSrc el) as [s|]; simpl in *; [|discriminate].
    apply negb_true_iff in Hsrc. now apply String.eqb_neq.
Qed.

(** X10: an image whose [alt] attribute is missing, or made only of spaces,
    tabs and line breaks (the empty text included), counts as an image
    without alternative text; when it has a [src], its entry in [imageData]
    keeps the text of the attribute, or the empty string when the attribute
    is missing or empty, with [hasAlt] false. *)
Theorem X10_blank_alt_counts_as_missing (st : ImageStats) (el : Img) :
  (imgAlt el = None
   \/ exists a, imgAlt el = Some a /\ NodeUrl.string_forallb JsString.isWs1 a = true) ->
  imagesWithAlt (eachImg st el) = imagesWithAlt st
  /\ imagesWithoutAlt (eachImg st el) = S (imagesWithoutAlt st)
  /\ (Js.truthy (imgSrc el) = true ->
      imageData (eachImg st el)
      = imageData st
        ++ [mkImageEntry (Js.template "" (imgSrc el)) (Js.or_default (imgAlt el) "") false])
  /\ (Js.truthy (imgSrc el) = false -> imageData (eachImg st el) = imageData st).
Proof.
  intros H.
  assert (Hno : hasAltOf (imgAlt el) = false).
  { destruct H as [-> | [a [-> Ha]]]; [reflexivity|].
    simpl. now rewrite (trim_white a Ha). }
  unfold eachImg. rewrite Hno. simpl. repeat split.
  - intros Hs. now rewrite Hs.
  - intros Hs. now rewrite Hs.
Qed.

Lemma X10_witness :
  let el := mkImg (Some "/logo.png") (Some "   ") in
  (imgAlt el = None
   \/ exists a, imgAlt el = Some a /\ NodeUrl.string_forallb JsString.isWs1 a = true)
  /\ imagesWithoutAlt (eachImg noImages el) = S (imagesWithoutAlt noImages).
Proof.
  intros el.
  assert (H : imgAlt el = None
              \/ exists a, imgAlt el = Some a
                           /\ NodeUrl.string_forallb JsString.isWs1 a = true).
  { right. exists "   ". split; reflexivity. }
  split; [exact H|].
  apply (X10_blank_alt_counts_as_missing noImages el H).
Defined.

(** ** The score *)

Ltac scoring_step :=
  intros;
  repeat match goal with
         | |- context [if ?b then _ else _] => destruct b
         end;
  unfold strength, issue, combineScoring, zeroScoring, Js.push; simpl;
  rewrite ?app_nil_r; f_equal; lia.

Lemma scoreTitle_delta (title : string) (s : Scoring) :
  scoreTitle title s = combineScoring s (scoreTitle title zeroScoring).
Proof. unfold scoreTitle. scoring_step. Qed.

Lemma scoreMetaPresence_delta (metaDescription : string) (s : Scoring) :
  scoreMetaPresence metaDescription s
  = combineScoring s (scoreMetaPresence metaDescription zeroScoring).
Proof. unfold scoreMetaPresence. scoring_step. Qed.

Lemma scoreMetaLength_delta (metaDescription : string) (s : Scoring) :
  scoreMetaLength metaDescription s
  = combineScoring s (scoreMetaLength metaDescription zeroScoring).
Proof. unfold scoreMetaLength. destruct s. scoring_step. Qed.

Lemma scoreH1_delta (h1Tags : list string) (s : Scoring) :
  scoreH1 h1Tags s = combineScoring s (scoreH1 h1Tags zeroScoring).
Proof. unfold scoreH1. scoring_step. Qed.

Lemma scoreImages_delta (images : ImageStats) (s : Scoring) :
  scoreImages images s = combineScoring s (scoreImages images zeroScoring).
Proof. unfold scoreImages. scoring_step. Qed.

Lemma scoreInternalLinks_delta (links : LinkLists) (s : Scoring) :
  scoreInternalLinks links s = combineScoring s (scoreInternalLinks links zeroScoring).
Proof. unfold scoreInternalLinks. scoring_step. Qed.

Lemma scoreDofollowLinks_delta (links : LinkLists) (s : Scoring) :
  scoreDofollowLinks links s = combineScoring s (scoreDofollowLinks links zeroScoring).
Proof. unfold scoreDofollowLinks. destruct s. scoring_step. Qed.

Lemma scoreBrokenLinks_delta (brokenLinks : list Entry) (s : Scoring) :
  scoreBrokenLinks brokenLinks s = combineScoring s (scoreBrokenLinks brokenLinks zeroScoring).
Proof. unfold scoreBrokenLinks. destruct s. scoring_step. Qed.

Lemma scoreNetworkIssues_delta (brokenLinks : list Entry) (s : Scoring) :
  scoreNetworkIssues brokenLinks s
  = combineScoring s (scoreNetworkIssues brokenLinks zeroScoring).
Proof. unfold scoreNetworkIssues. destruct s. scoring_step. Qed.

Lemma scoreSchema_delta `{JsNumbers} (schemaData : list Json) (s : Scoring) :
  scoreSchema schemaData s = combineScoring s (scoreSchema schemaData zeroScoring).
Proof. unfold scoreSchema. scoring_step. Qed.

(** The scoring before the last two statements. *)
Lemma scorePage_deltas `{JsNumbers} (title metaDescription : string) (h1Tags : list string)
      (images : ImageStats) (links : LinkLists) (brokenLinks : list Entry)
      (schemaData : list Json) :
  scorePage title metaDescription h1Tags images links brokenLinks schemaData
  = clampScore
      (combineScoring
         (combineScoring
            (combineScoring
               (combineScoring
                  (combineScoring
                     (combineScoring
                        (combineScoring
                           (combineScoring
                              (combineScoring
                                 (combineScoring initialScoring
                                    (scoreTitle title zeroScoring))
                                 (scoreMetaPresence metaDescription zeroScoring))
                              (scoreMetaLength metaDescription zeroScoring))
                           (scoreH1 h1Tags zeroScoring))
                        (scoreImages images zeroScoring))
                     (scoreInternalLinks links zeroScoring))
                  (scoreDofollowLinks links zeroScoring))
               (scoreBrokenLinks brokenLinks zeroScoring))
            (scoreNetworkIssues brokenLinks zeroScoring))
         (scoreSchema schemaData zeroScoring)).
Proof.
  unfold scorePage.
  now rewrite scoreSchema_delta, scoreNetworkIssues_delta, scoreBrokenLinks_delta,
    scoreDofollowLinks_delta, scoreInternalLinks_delta, scoreImages_delta, scoreH1_delta,
    scoreMetaLength_delta, scoreMetaPresence_delta, scoreTitle_delta.
Qed.

Lemma clampScore_score (s : Scoring) :
  score (clampScore s) = Z.max 0 (Z.min 100 (score s)).
Proof.
  unfold clampScore.
  destruct (Z.ltb_spec 100 (score s)); simpl;
    [|destruct (Z.ltb_spec (score s) 0); simpl]; lia.
Qed.

Lemma clampScore_lists (s : Scoring) :
  strengths (clampScore s) = strengths s /\ issues (clampScore s) = issues s.
Proof.
  unfold clampScore.
  destruct (100 <? score s)%Z; simpl;
    [|destruct (score s <? 0)%Z; simpl]; split; reflexivity.
Qed.

Lemma scoreTitle_points (title : string) :
  score (scoreTitle title zeroScoring)
  = points ((1 <=? JsString.jsLength title)%nat && (JsString.jsLength title <=? 60)%nat) 10.
Proof.
  unfold scoreTitle. change (0 <? JsString.jsLength title)%nat
    with (1 <=? JsString.jsLength title)%nat.
  destruct ((1 <=? JsString.jsLength title)%nat && (JsString.jsLength title <=? 60)%nat);
    [reflexivity|]. now destruct (60 <? JsString.jsLength title)%nat.
Qed.

Lemma scoreMetaPresence_points (metaDescription : string) :
  score (scoreMetaPresence metaDescription zeroScoring)
  = points (negb (metaDescription =? "No description")) 10.
Proof.
  unfold scoreMetaPresence. now destruct (negb (metaDescription =? "No description")).
Qed.

Lemma scoreMetaLength_points (metaDescription : string) :
  score (scoreMetaLength metaDescription zeroScoring) = 0%Z.
Proof.
  unfold scoreMetaLength.
  now destruct ((JsString.jsLength metaDescription <? 50)%nat
                || (160 <? JsString.jsLength metaDescription)%nat).
Qed.

Lemma scoreH1_points (h1Tags : list string) :
  score (scoreH1 h1Tags zeroScoring) = points (length h1Tags =? 1)%nat 10.
Proof.
  unfold scoreH1. destruct (length h1Tags =? 1)%nat; [reflexivity|].
  now destruct (length h1Tags =? 0)%nat.
Qed.

Lemma ltb_0_negb_eqb (n : nat) : (0 <? n)%nat = negb (n =? 0)%nat.
Proof. now destruct n. Qed.

Lemma scoreImages_points (images : ImageStats) :
  score (scoreImages images zeroScoring)
  = points ((imagesWithoutAlt images =? 0)%nat
            && negb (length (imageData images) =? 0)%nat) 10.
Proof.
  unfold scoreImages. rewrite (ltb_0_negb_eqb (length (imageData images))).
  destruct ((imagesWithoutAlt images =? 0)%nat
            && negb (length (imageData images) =? 0)%nat); [reflexivity|].
  now destruct (0 <? imagesWithoutAlt images)%nat.
Qed.

Lemma scoreInternalLinks_points (links : LinkLists) :
  score (scoreInternalLinks links zeroScoring)
  = points (negb (length (internalLinks links) =? 0)%nat) 5.
Proof.
  unfold scoreInternalLinks. rewrite ltb_0_negb_eqb.
  now destruct (negb (length (internalLinks links) =? 0)%nat).
Qed.

Lemma scoreDofollowLinks_points (links : LinkLists) :
  score (scoreDofollowLinks links zeroScoring)
  = points (negb (length (externalDofollowLinks links) =? 0)%nat) 5.
Proof.
  unfold scoreDofollowLinks. rewrite ltb_0_negb_eqb.
  now destruct (negb (length (externalDofollowLinks links) =? 0)%nat).
Qed.

Lemma scoreBrokenLinks_points (brokenLinks : list Entry) :
  score (scoreBrokenLinks brokenLinks zeroScoring)
  = (- (5 * Z.of_nat (confirmedBrokenLinksCount brokenLinks)))%Z.
Proof.
  unfold scoreBrokenLinks.
  destruct (confirmedBrokenLinksCount brokenLinks) as [|n] eqn:E; simpl; [reflexivity|].
  lia.
Qed.

Lemma scoreNetworkIssues_points (brokenLinks : list Entry) :
  score (scoreNetworkIssues brokenLinks zeroScoring) = 0%Z
  /\ strengths (scoreNetworkIssues brokenLinks zeroScoring) = [].
Proof.
  unfold scoreNetworkIssues.
  now destruct (0 <? networkIssueLinksCount brokenLinks)%nat.
Qed.

Lemma scoreSchema_points `{JsNumbers} (schemaData : list Json) :
  score (scoreSchema schemaData zeroScoring)
  = points (negb (length schemaData =? 0)%nat) 5.
Proof.
  unfold scoreSchema. rewrite ltb_0_negb_eqb.
  now destruct (negb (length schemaData =? 0)%nat).
Qed.

Lemma scorePage_score `{JsNumbers} (title metaDescription : string) (h1Tags : list string)
      (images : ImageStats) (links : LinkLists) (brokenLinks : list Entry)
      (schemaData : list Json) :
  score (scorePage title metaDescription h1Tags images links brokenLinks schemaData)
  = Z.max 0 (Z.min 100
               (rawScore title metaDescription h1Tags images links brokenLinks schemaData)).
Proof.
  rewrite scorePage_deltas, clampScore_score. f_equal. f_equal.
  unfold combineScoring at 1 2 3 4 5 6 7 8 9 10. cbn [score initialScoring].
  rewrite scoreTitle_points, scoreMetaPresence_points, scoreMetaLength_points,
    scoreH1_points, scoreImages_points, scoreInternalLinks_points,
    scoreDofollowLinks_points, scoreBrokenLinks_points, scoreSchema_points.
  rewrite (proj1 (scoreNetworkIssues_points brokenLinks)).
  unfold rawScore. lia.
Qed.

Lemma points_bounds (b : bool) (p : Z) : (0 <= p -> 0 <= points b p <= p)%Z.
Proof. destruct b; simpl; lia. Qed.

Lemma rawScore_bounds `{JsNumbers} (title metaDescription : string) (h1Tags : list string)
      (images : ImageStats) (links : LinkLists) (brokenLinks : list Entry)
      (schemaData : list Json) :
  let c := Z.of_nat (confirmedBrokenLinksCount brokenLinks) in
  (50 - 5 * c
   <= rawScore title metaDescription h1Tags images links brokenLinks schemaData
   <= 105 - 5 * c)%Z.
Proof.
  intros c. unfold rawScore. fold c.
  repeat match goal with
         | |- context [points ?b ?p] =>
             let Hb := fresh "Hb" in
             assert (Hb : (0 <= points b p <= p)%Z) by (apply points_bounds; lia);
             generalize dependent (points b p); intros
         end.
  clearbody c. lia.
Qed.

Lemma scorePage_range `{JsNumbers} (title metaDescription : string)
      (h1Tags : list string) (images : ImageStats) (links : LinkLists)
      (brokenLinks : list Entry) (schemaData : list Json) :
  (0 <= score (scorePage title metaDescription h1Tags images links brokenLinks schemaData)
   <= 100)%Z.
Proof. rewrite scorePage_score. lia. Qed.

(** X11: the score sent back is 50, plus 10 for each of: a title of 1 to 60
    code units, a description other than ['No description'], exactly one
    [h1], no image without alternative text among at least one listed
    image; plus 5 for each of: an internal link, a followable external link,
    schema markup; minus 5 for every confirmed broken link; the sum is then
    brought into the range from 0 to 100.  The length of the description
    and the links with network issues change no point. *)
Theorem X11_score_formula `{JsNumbers} (title metaDescription : string)
        (h1Tags : list string) (images : ImageStats) (links : LinkLists)
        (brokenLinks : list Entry) (schemaData : list Json) :
  let s := scorePage title metaDescription h1Tags images links brokenLinks schemaData in
  score s
  = Z.max 0 (Z.min 100
               (rawScore title metaDescription h1Tags images links brokenLinks schemaData))
  /\ (0 <= score s <= 100)%Z
  /\ (confirmedBrokenLinksCount brokenLinks = 0 -> (50 <= score s)%Z).
Proof.
  intros s. subst s. rewrite scorePage_score.
  pose proof (rawScore_bounds title metaDescription h1Tags images links brokenLinks
                schemaData) as Hb. cbv zeta in Hb.
  split; [reflexivity|]. split; [lia|]. intros Hc. rewrite Hc in Hb. lia.
Qed.

(** X12: confirmed broken links weigh on the result as follows.  With 10 or
    more of them the status is ['bad'] whatever else the page has; with 21
    or more the score is 0; and, everything else being equal, a page with
    more confirmed broken links never has a higher score. *)
Theorem X12_broken_link_penalty `{JsNumbers} (title metaDescription : string)
        (h1Tags : list string) (images : ImageStats) (links : LinkLists)
        (brokenLinks brokenLinks' : list Entry) (schemaData : list Json) :
  let s := scorePage title metaDescription h1Tags images links brokenLinks schemaData in
  let s' := scorePage title metaDescription h1Tags images links brokenLinks' schemaData in
  (10 <= confirmedBrokenLinksCount brokenLinks -> statusOf (score s) = "bad")
  /\ (21 <= confirmedBrokenLinksCount brokenLinks -> score s = 0%Z)
  /\ (confirmedBrokenLinksCount brokenLinks <= confirmedBrokenLinksCount brokenLinks' ->
      (score s' <= score s)%Z).
Proof.
  intros s s'. subst s s'. rewrite !scorePage_score.
  pose proof (rawScore_bounds title metaDescription h1Tags images links brokenLinks
                schemaData) as Hb. cbv zeta in Hb.
  split; [|split].
  - intros Hc. unfold statusOf.
    destruct (Z.leb_spec 80 (Z.max 0 (Z.min 100 (rawScore title metaDescription h1Tags
                                                     images links brokenLinks schemaData))));
      [lia|].
    destruct (Z.leb_spec 60 (Z.max 0 (Z.min 100 (rawScore title metaDescription h1Tags
                                                     images links brokenLinks schemaData))));
      [lia | reflexivity].
  - intros Hc. lia.
  - intros Hc. unfold rawScore. lia.
Qed.

Lemma scorePage_score_deltas `{JsNumbers} (title metaDescription : string)
      (h1Tags : list string) (images : ImageStats) (links : LinkLists)
      (brokenLinks : list Entry) (schemaData : list Json) :
  score (scorePage title metaDescription h1Tags images links brokenLinks schemaData)
  = Z.max 0 (Z.min 100
      (50 + score (scoreTitle title zeroScoring)
       + score (scoreMetaPresence metaDescription zeroScoring)
       + score (scoreMetaLength metaDescription zeroScoring)
       + score (scoreH1 h1Tags zeroScoring)
       + score (scoreImages images zeroScoring)
       + score (scoreInternalLinks links zeroScoring)
       + score (scoreDofollowLinks links zeroScoring)
       + score (scoreBrokenLinks brokenLinks zeroScoring)
       + score (scoreNetworkIssues brokenLinks zeroScoring)
       + score (scoreSchema schemaData zeroScoring)))%Z.
Proof. rewrite scorePage_deltas, clampScore_score. reflexivity. Qed.

Lemma scorePage_strengths `{JsNumbers} (title metaDescription : string)
      (h1Tags : list string) (images : ImageStats) (links : LinkLists)
      (brokenLinks : list Entry) (schemaData : list Json) :
  strengths (scorePage title metaDescription h1Tags images links brokenLinks schemaData)
  = strengths (scoreTitle title zeroScoring)
    ++ strengths (scoreMetaPresence metaDescription zeroScoring)
    ++ strengths (scoreMetaLength metaDescription zeroScoring)
    ++ strengths (scoreH1 h1Tags zeroScoring)
    ++ strengths (scoreImages images zeroScoring)
    ++ strengths (scoreInternalLinks links zeroScoring)
    ++ strengths (scoreDofollowLinks links zeroScoring)
    ++ strengths (scoreBrokenLinks brokenLinks zeroScoring)
    ++ strengths (scoreNetworkIssues brokenLinks zeroScoring)
    ++ strengths (scoreSchema schemaData zeroScoring).
Proof.
  rewrite scorePage_deltas, (proj1 (clampScore_lists _)).
  cbn [combineScoring strengths initialScoring]. now rewrite <- !app_assoc.
Qed.

Lemma scorePage_issues `{JsNumbers} (title metaDescription : string)
      (h1Tags : list string) (images : ImageStats) (links : LinkLists)
      (brokenLinks : list Entry) (schemaData : list Json) :
  issues (scorePage title metaDescription h1Tags images links brokenLinks schemaData)
  = issues (scoreTitle title zeroScoring)
    ++ issues (scoreMetaPresence metaDescription zeroScoring)
    ++ issues (scoreMetaLength metaDescription zeroScoring)
    ++ issues (scoreH1 h1Tags zeroScoring)
    ++ issues (scoreImages images zeroScoring)
    ++ issues (scoreInternalLinks links zeroScoring)
    ++ issues (scoreDofollowLinks links zeroScoring)
    ++ issues (scoreBrokenLinks brokenLinks zeroScoring)
    ++ issues (scoreNetworkIssues brokenLinks zeroScoring)
    ++ issues (scoreSchema schemaData zeroScoring).
Proof.
  rewrite scorePage_deltas, (proj2 (clampScore_lists _)).
  cbn [combineScoring issues initialScoring]. now rewrite <- !app_assoc.
Qed.

Lemma scoreBrokenLinks_strengths (brokenLinks : list Entry) :
  strengths (scoreBrokenLinks brokenLinks zeroScoring) = [].
Proof.
  unfold scoreBrokenLinks. now destruct (0 <? confirmedBrokenLinksCount brokenLinks)%nat.
Qed.

(** X13: the links with connection problems change neither the score nor the
    strengths.  Two analyses that differ only in [brokenLinks] have the same
    strengths, and they have the same score and status as soon as they have
    the same number of confirmed broken links. *)
Theorem X13_network_issues_cost_nothing `{JsNumbers} (title metaDescription : string)
        (h1Tags : list string) (images : ImageStats) (links : LinkLists)
        (brokenLinks brokenLinks' : list Entry) (schemaData : list Json) :
  confirmedBrokenLinksCount brokenLinks = confirmedBrokenLinksCount brokenLinks' ->
  let s := scorePage title metaDescription h1Tags images links brokenLinks schemaData in
  let s' := scorePage title metaDescription h1Tags images links brokenLinks' schemaData in
  score s = score s'
  /\ statusOf (score s) = statusOf (score s')
  /\ strengths s = strengths s'.
Proof.
  intros Hc s s'. subst s s'.
  assert (Hs : score (scorePage title metaDescription h1Tags images links brokenLinks
                        schemaData)
               = score (scorePage title metaDescription h1Tags images links brokenLinks'
                          schemaData)).
  { rewrite !scorePage_score. unfold rawScore. now rewrite Hc. }
  split; [exact Hs|]. split; [now rewrite Hs|].
  rewrite !scorePage_strengths, !scoreBrokenLinks_strengths.
  now rewrite (proj2 (scoreNetworkIssues_points brokenLinks)),
    (proj2 (scoreNetworkIssues_points brokenLinks')).
Qed.

Lemma X13_witness :
  let timeout :=
    [Record_ (mkBrokenLink "https://example.com/slow" (StatusText "Timeout") "Network Issue")] in
  let page := fun brokenLinks =>
    scorePage "A title" "No description" ["Heading"] noImages noLinks brokenLinks [] in
  confirmedBrokenLinksCount [] = confirmedBrokenLinksCount timeout
  /\ score (page []) = score (page timeout).
Proof.
  intros timeout page. split; [reflexivity|].
  apply (X13_network_issues_cost_nothing "A title" "No description" ["Heading"] noImages
           noLinks [] timeout []).
  reflexivity.
Defined.

Ltac not_that_issue :=
  intros m Hin;
  repeat match type of Hin with
         | context [if ?b then _ else _] => destruct b
         end;
  simpl in Hin;
  repeat match type of Hin with
         | _ \/ _ => destruct Hin as [Hin|Hin]
         | False => destruct Hin
         end;
  subst m; discriminate.

Lemma other_issues_are_not_no_title `{JsNumbers} (metaDescription : string)
      (h1Tags : list string) (images : ImageStats) (links : LinkLists)
      (brokenLinks : list Entry) (schemaData : list Json) (m : string) :
  In m (issues (scoreMetaPresence metaDescription zeroScoring)
        ++ issues (scoreMetaLength metaDescription zeroScoring)
        ++ issues (scoreH1 h1Tags zeroScoring)
        ++ issues (scoreImages images zeroScoring)
        ++ issues (scoreInternalLinks links zeroScoring)
        ++ issues (scoreDofollowLinks links zeroScoring)
        ++ issues (scoreBrokenLinks brokenLinks zeroScoring)
        ++ issues (scoreNetworkIssues brokenLinks zeroScoring)
        ++ issues (scoreSchema schemaData zeroScoring)) ->
  m <> "No Title ❌".
Proof.
  rewrite !in_app_iff.
  intros [Hin|[Hin|[Hin|[Hin|[Hin|[Hin|[Hin|[Hin|Hin]]]]]]]]; revert m Hin.
  - unfold scoreMetaPresence. not_that_issue.
  - unfold scoreMetaLength. not_that_issue.
  - unfold scoreH1. not_that_issue.
  - unfold scoreImages. not_that_issue.
  - unfold scoreInternalLinks. not_that_issue.
  - unfold scoreDofollowLinks. not_that_issue.
  - unfold scoreBrokenLinks. not_that_issue.
  - unfold scoreNetworkIssues. not_that_issue.
  - unfold scoreSchema. not_that_issue.
Qed.

Lemma scorePage_never_no_title `{JsNumbers} (head : Head) (metaDescription : string)
      (h1Tags : list string) (images : ImageStats) (links : LinkLists)
      (brokenLinks : list Entry) (schemaData : list Json) :
  ~ In "No Title ❌"
       (issues (scorePage (titleOf head) metaDescription h1Tags images links brokenLinks
                  schemaData)).
Proof.
  rewrite scorePage_issues, in_app_iff. intros [Hin|Hin].
  - pose proof (titleOf_jsLength head) as Hlen.
    revert Hin. unfold scoreTitle.
    destruct (Nat.ltb_spec 0 (JsString.jsLength (titleOf head))) as [H0|H0]; [|lia].
    destruct (Nat.leb_spec (JsString.jsLength (titleOf head)) 60) as [H60|H60]; simpl;
      [tauto|].
    destruct (Nat.ltb_spec 60 (JsString.jsLength (titleOf head))) as [H61|H61]; [|lia].
    simpl. intros [Hm|[]]. discriminate Hm.
  - now apply other_issues_are_not_no_title in Hin.
Qed.

(** X14: the issue ['No Title ❌'] is never reported.  The title the handler
    scores is never empty, since an empty [title] text was replaced by
    ['No title']; a page without title text therefore gets the strength
    ['Title is present and suitable length ✅'] and its 10 points. *)
Theorem X14_no_title_is_never_reported `{JsNumbers} (head : Head)
        (metaDescription : string) (h1Tags : list string) (images : ImageStats)
        (links : LinkLists) (brokenLinks : list Entry) (schemaData : list Json) :
  let s := scorePage (titleOf head) metaDescription h1Tags images links brokenLinks
             schemaData in
  ~ In "No Title ❌" (issues s)
  /\ (titleText head = "" ->
      In "Title is present and suitable length ✅" (strengths s)
      /\ score (scoreTitle (titleOf head) zeroScoring) = 10%Z).
Proof.
  intros s. subst s. split.
  - apply scorePage_never_no_title.
  - intros Ht.
    assert (Htitle : titleOf head = "No title") by (unfold titleOf; now rewrite Ht).
    rewrite scorePage_strengths, Htitle. split; [|reflexivity].
    apply in_or_app. left. simpl. now left.
Qed.

Lemma app_nil_both {A : Type} (a b : list A) : a ++ b = [] -> a = [] /\ b = [].
Proof. destruct a; simpl; [intros Hb; now split | discriminate]. Qed.

Ltac no_issue_points :=
  repeat match goal with
         | |- context [if ?b then _ else _] => destruct b; simpl
         end;
  intros; try discriminate; simpl; lia.

(** X15: a report without issues has a score of at least 90 and the status
    ['good'].  For the list of issues to be empty the title, the
    description, the single [h1], the internal links and the schema markup
    must all have passed, and no broken link may be confirmed. *)
Theorem X15_no_issues_means_good `{JsNumbers} (title metaDescription : string)
        (h1Tags : list string) (images : ImageStats) (links : LinkLists)
        (brokenLinks : list Entry) (schemaData : list Json) :
  let s := scorePage title metaDescription h1Tags images links brokenLinks schemaData in
  issues s = [] ->
  (90 <= score s <= 100)%Z
  /\ statusOf (score s) = "good"
  /\ confirmedBrokenLinksCount brokenLinks = 0
  /\ networkIssueLinksCount brokenLinks = 0
  /\ length h1Tags = 1
  /\ metaDescription <> "No description".
Proof.
  intros s Hnil. subst s. rewrite scorePage_issues in Hnil.
  repeat match type of Hnil with
         | _ ++ _ = [] =>
             let Ha := fresh "Ha" in
             apply app_nil_both in Hnil; destruct Hnil as [Ha Hnil]
         end.
  assert (Ht : score (scoreTitle title zeroScoring) = 10%Z).
  { revert Ha. unfold scoreTitle. no_issue_points. }
  assert (Hm : score (scoreMetaPresence metaDescription zeroScoring) = 10%Z
               /\ metaDescription <> "No description").
  { revert Ha0. unfold scoreMetaPresence.
    destruct (String.eqb_spec metaDescription "No description"); simpl;
      [discriminate | intros _; split; [reflexivity | assumption]]. }
  assert (Hh : score (scoreH1 h1Tags zeroScoring) = 10%Z /\ length h1Tags = 1).
  { revert Ha2. unfold scoreH1. destruct (Nat.eqb_spec (length h1Tags) 1); simpl.
    - intros _. split; [reflexivity | assumption].
    - destruct (length h1Tags =? 0)%nat; discriminate. }
  assert (Hi : (0 <= score (scoreImages images zeroScoring))%Z).
  { rewrite scoreImages_points. apply points_bounds. lia. }
  assert (Hl : score (scoreInternalLinks links zeroScoring) = 5%Z).
  { revert Ha4. unfold scoreInternalLinks. no_issue_points. }
  assert (Hd : (0 <= score (scoreDofollowLinks links zeroScoring))%Z).
  { rewrite scoreDofollowLinks_points. apply points_bounds. lia. }
  assert (Hb : confirmedBrokenLinksCount brokenLinks = 0).
  { revert Ha6. unfold scoreBrokenLinks.
    destruct (confirmedBrokenLinksCount brokenLinks); [reflexivity|].
    simpl. unfold Js.push. simpl. discriminate. }
  assert (Hn : networkIssueLinksCount brokenLinks = 0).
  { revert Ha7. unfold scoreNetworkIssues.
    destruct (networkIssueLinksCount brokenLinks); [reflexivity|].
    simpl. unfold Js.push. simpl. discriminate. }
  assert (Hs : score (scoreSchema schemaData zeroScoring) = 5%Z).
  { revert Hnil. unfold scoreSchema. no_issue_points. }
  assert (Hscore : (90 <= score (scorePage title metaDescription h1Tags images links
                                   brokenLinks schemaData) <= 100)%Z).
  { rewrite scorePage_score_deltas, Ht, (proj1 Hm), scoreMetaLength_points, (proj1 Hh),
      Hl, scoreBrokenLinks_points, Hb, (proj1 (scoreNetworkIssues_points brokenLinks)), Hs.
    lia. }
  split; [exact Hscore|]. split.
  - unfold statusOf.
    destruct (Z.leb_spec 80 (score (scorePage title metaDescription h1Tags images links
                                      brokenLinks schemaData))); [reflexivity | lia].
  - repeat split; try assumption; [apply Hh | apply Hm].
Qed.

Lemma X15_witness :
  let links := mkLinkLists ["https://example.com/a"] ["https://example.com/a"] [] [] in
  let description := "A description that is long enough to pass the length check." in
  let s := scorePage "A title" description ["Heading"] noImages links []
             [JString "Article"] in
  issues s = [] /\ (90 <= score s <= 100)%Z.
Proof.
  intros links description s.
  assert (Hnil : issues s = []) by reflexivity.
  split; [exact Hnil|].
  apply (X15_no_issues_means_good "A title" description ["Heading"] noImages links []
           [JString "Article"] Hnil).
Defined.

(** X16: the scoring of [index.js], which has no broken-link check, is the
    scoring of the later handler on a page without confirmed broken links
    and without links with network issues: same score, same strengths, same
    issues. *)
Theorem X16_scoring_extends_index_js `{JsNumbers} (title metaDescription : string)
        (h1Tags : list string) (images : ImageStats) (links : LinkLists)
        (brokenLinks : list Entry) (schemaData : list Json) :
  confirmedBrokenLinksCount brokenLinks = 0 ->
  networkIssueLinksCount brokenLinks = 0 ->
  scorePage title metaDescription h1Tags images links brokenLinks schemaData
  = IndexJs.scorePage title metaDescription h1Tags images links schemaData.
Proof.
  intros Hc Hn. unfold scorePage, IndexJs.scorePage, scoreNetworkIssues, scoreBrokenLinks.
  now rewrite Hc, Hn.
Qed.

Lemma X16_witness :
  confirmedBrokenLinksCount [] = 0
  /\ networkIssueLinksCount [] = 0
  /\ scorePage "A title" "No description" [] noImages noLinks [] []
     = IndexJs.scorePage "A title" "No description" [] noImages noLinks [].
Proof.
  split; [reflexivity|]. split; [reflexivity|].
  apply (X16_scoring_extends_index_js "A title" "No description" [] noImages noLinks [] []);
    reflexivity.
Defined.

(** ** Schema markup *)

Lemma pushType_app `{JsNumbers} (schemaData : list Json) (t : JsValue) :
  pushType schemaData t = schemaData ++ pushType [] t.
Proof.
  destruct t as [|j]; simpl; [now rewrite app_nil_r|].
  destruct (truthyJson j); unfold Js.push; simpl; now rewrite ?app_nil_r.
Qed.

Lemma pushType_truthy `{JsNumbers} (t : JsValue) :
  Forall (fun v => truthyJson v = true) (pushType [] t).
Proof.
  destruct t as [|j]; simpl; [constructor|].
  destruct (truthyJson j) eqn:E; unfold Js.push; simpl; repeat constructor. exact E.
Qed.

Lemma getNamed_not_null `{JsNumbers} (item : Json) (key : string) :
  isNull item = false -> exists t, getNamed item key = Normal t.
Proof. destruct item; simpl; try discriminate; eauto. Qed.

Lemma pushType_declared `{JsNumbers} (item : Json) :
  isNull item = false ->
  exists t, getNamed item "@type" = Normal t /\ pushType [] t = declaredType item.
Proof.
  destruct item as [| b | n | s | items | fields]; simpl; try discriminate; intros _;
    try (exists Undefined; split; reflexivity).
  exists (lookupField "@type" fields). split; [reflexivity|].
  destruct (lookupField "@type" fields) as [|t]; simpl; [reflexivity|].
  now destruct (truthyJson t).
Qed.

Lemma pushItemTypes_no_null `{JsNumbers} (items schemaData : list Json) :
  forallb (fun item => negb (isNull item)) items = true ->
  pushItemTypes items schemaData = schemaData ++ flat_map declaredType items.
Proof.
  revert schemaData; induction items as [|item items IH]; intros schemaData Hn.
  - simpl. now rewrite app_nil_r.
  - simpl in Hn. apply andb_true_iff in Hn. destruct Hn as [Hi Hn].
    apply negb_true_iff in Hi.
    destruct (pushType_declared item Hi) as [t [Ht Hd]].
    cbn [pushItemTypes flat_map]. rewrite Ht, (IH _ Hn), (pushType_app schemaData t), Hd.
    now rewrite <- app_assoc.
Qed.

Lemma pushItemTypes_stops_at_null `{JsNumbers} (before after schemaData : list Json) :
  forallb (fun item => negb (isNull item)) before = true ->
  pushItemTypes (before ++ JNull :: after) schemaData = pushItemTypes before schemaData.
Proof.
  revert schemaData; induction before as [|item before IH]; intros schemaData Hn; simpl.
  - reflexivity.
  - simpl in Hn. apply andb_true_iff in Hn. destruct Hn as [Hi Hn].
    apply negb_true_iff in Hi.
    destruct (getNamed_not_null item "@type" Hi) as [t Ht].
    rewrite Ht. now apply IH.
Qed.

Lemma pushItemTypes_truthy `{JsNumbers} (items schemaData : list Json) :
  Forall (fun v => truthyJson v = true) schemaData ->
  Forall (fun v => truthyJson v = true) (pushItemTypes items schemaData).
Proof.
  revert schemaData; induction items as [|item items IH]; intros schemaData Hd; simpl.
  - exact Hd.
  - destruct (getNamed item "@type") as [t|]; [|exact Hd].
    apply IH. rewrite pushType_app. apply Forall_app. split; [exact Hd|].
    apply pushType_truthy.
Qed.

Lemma eachScript_truthy `{JsNumbers} (schemaData : list Json) (parsed : Completion Json) :
  Forall (fun v => truthyJson v = true) schemaData ->
  Forall (fun v => truthyJson v = true) (eachScript schemaData parsed).
Proof.
  intros Hd.
  assert (Hone : forall t, Forall (fun v => truthyJson v = true) (pushType schemaData t)).
  { intros t. rewrite pushType_app. apply Forall_app. split; [exact Hd|].
    apply pushType_truthy. }
  destruct parsed as [[| | | | items |]|]; simpl; try exact Hd; try apply Hone.
  now apply pushItemTypes_truthy.
Qed.

Lemma typed_names_declared `{JsNumbers} (names : list string) :
  Forall (fun name => name <> "") names ->
  forallb (fun item => negb (isNull item)) (map typed names) = true
  /\ flat_map declaredType (map typed names) = map JString names.
Proof.
  induction names as [|name names IH]; intros Hall; [split; reflexivity|].
  inversion Hall as [|? ? Hname Hnames]; subst.
  destruct (IH Hnames) as [Hnull Hflat]. split.
  - simpl. exact Hnull.
  - cbn [map flat_map]. rewrite Hflat. unfold typed, declaredType. simpl.
    apply String.eqb_neq in Hname. now rewrite Hname.
Qed.

(** X17: what a JSON-LD script contributes to [schemaData].  A script that
    does not parse, or whose JSON is [null], a string, a number or a
    boolean, contributes nothing.  An object contributes the value of its
    [@type] field when that value is truthy.  An array contributes, in
    order, what each of its items contributes as an object, but only up to
    its first [null] item: reading [@type] of [null] throws, which ends the
    loop for that script and keeps what was pushed before.  So the object
    [{"@type": name}] adds [name], and an array of such objects adds their
    names in order.  In every case [schemaData] holds truthy values only. *)
Theorem X17_schema_types `{JsNumbers} (scripts : list (Completion Json))
        (schemaData before after : list Json) (fields : list (string * Json))
        (names : list string) :
  eachScript schemaData Throw = schemaData
  /\ eachScript schemaData (Normal JNull) = schemaData
  /\ (forall s b n,
         eachScript schemaData (Normal (JString s)) = schemaData
         /\ eachScript schemaData (Normal (JBool b)) = schemaData
         /\ eachScript schemaData (Normal (JNumber n)) = schemaData)
  /\ eachScript schemaData (Normal (JObject fields))
     = schemaData ++ declaredType (JObject fields)
  /\ (forallb (fun item => negb (isNull item)) before = true ->
      eachScript schemaData (Normal (JArray before))
      = schemaData ++ flat_map declaredType before
      /\ eachScript schemaData (Normal (JArray (before ++ JNull :: after)))
         = schemaData ++ flat_map declaredType before)
  /\ (Forall (fun name => name <> "") names ->
      eachScript schemaData (Normal (JArray (map typed names)))
      = schemaData ++ map JString names
      /\ collectSchema (map (fun name => Normal (typed name)) names) = map JString names)
  /\ Forall (fun v => truthyJson v = true) (collectSchema scripts).
Proof.
  split; [reflexivity|]. split; [reflexivity|].
  split; [intros s b n; repeat split|].
  split.
  { cbn [eachScript getNamed]. rewrite pushType_app. reflexivity. }
  split.
  { intros Hn. cbn [eachScript]. split.
    - now apply pushItemTypes_no_null.
    - rewrite pushItemTypes_stops_at_null by exact Hn. now apply pushItemTypes_no_null. }
  split.
  { intros Hnames. destruct (typed_names_declared names Hnames) as [Hnull Hflat]. split.
    - cbn [eachScript]. now rewrite (pushItemTypes_no_null _ _ Hnull), Hflat.
    - unfold collectSchema.
      assert (Hgen : forall acc,
                 fold_left eachScript (map (fun name => Normal (typed name)) names) acc
                 = acc ++ map JString names).
      { clear Hnull Hflat. induction names as [|name names IH]; intros acc; simpl;
          [now rewrite app_nil_r|].
        inversion Hnames as [|? ? Hname Hrest]; subst.
        rewrite (IH Hrest). apply String.eqb_neq in Hname. rewrite Hname. simpl.
        unfold Js.push. now rewrite <- app_assoc. }
      apply Hgen. }
  unfold collectSchema.
  assert (Hgen : forall acc, Forall (fun v => truthyJson v = true) acc ->
                   Forall (fun v => truthyJson v = true) (fold_left eachScript scripts acc)).
  { induction scripts as [|script scripts IH]; intros acc Hacc; simpl; [exact Hacc|].
    apply IH. now apply eachScript_truthy. }
  apply Hgen. constructor.
Qed.

(** ** Keyword suggestions *)

Lemma lookupField_last `{JsNumbers} (key : string) (before : list (string * Json))
      (v : Json) :
  lookupField key (before ++ [(key, v)]) = Value v.
Proof.
  induction before as [|[k w] before IH]; simpl.
  - now rewrite String.eqb_refl.
  - now rewrite IH.
Qed.

Lemma keywordsOf_nonempty (rawKeywords : string) :
  Forall (fun k => k <> "") (keywordsOf rawKeywords).
Proof.
  apply Forall_forall. intros k Hk. unfold keywordsOf in Hk.
  apply filter_In in Hk. destruct Hk as [_ Hk]. apply Nat.ltb_lt in Hk.
  intros ->. unfold JsString.jsLength in Hk. simpl in Hk. lia.
Qed.

Lemma keywordsFromResult_cases `{JsComparison} (result : Json) :
  keywordsFromResult result = Throw
  \/ keywordsFromResult result = Normal []
  \/ exists rawKeywords, keywordsFromResult result = Normal (keywordsOf rawKeywords).
Proof.
  unfold keywordsFromResult.
  repeat match goal with
         | |- context [match ?x with _ => _ end] => destruct x
         end; eauto.
Qed.

Lemma keywordSuggestionsOf_nonempty `{JsComparison} (contentToSendToLLM : string)
      (apiKey : option string) (geminiResult : Completion Json) :
  Forall (fun k => k <> "")
         (keywordSuggestionsOf contentToSendToLLM apiKey geminiResult).
Proof.
  unfold keywordSuggestionsOf.
  destruct (50 <? JsString.jsLength contentToSendToLLM)%nat;
    [|repeat constructor; discriminate].
  destruct (negb (Js.truthy apiKey)); [repeat constructor; discriminate|].
  destruct geminiResult as [result|]; [|repeat constructor; discriminate].
  destruct (keywordsFromResult_cases result) as [E|[E|[raw E]]]; rewrite E.
  - repeat constructor; discriminate.
  - constructor.
  - apply keywordsOf_nonempty.
Qed.

(** X18: no keyword suggestion is an empty string, whatever the page, the
    API key and the answer of the service are; and without an API key, or
    with a text of 50 code units or less, the answer of the service plays no
    part. *)
Theorem X18_suggestions_are_never_empty_strings `{JsComparison}
        (contentToSendToLLM : string) (apiKey : option string)
        (geminiResult geminiResult' : Completion Json) :
  Forall (fun k => k <> "")
         (keywordSuggestionsOf contentToSendToLLM apiKey geminiResult)
  /\ (JsString.jsLength contentToSendToLLM <= 50 \/ Js.truthy apiKey = false ->
      keywordSuggestionsOf contentToSendToLLM apiKey geminiResult
      = keywordSuggestionsOf contentToSendToLLM apiKey geminiResult'
      /\ length (keywordSuggestionsOf contentToSendToLLM apiKey geminiResult) = 1).
Proof.
  split.
  - apply keywordSuggestionsOf_nonempty.
  - intros Hc. unfold keywordSuggestionsOf.
    destruct (Nat.ltb_spec 50 (JsString.jsLength contentToSendToLLM)) as [Hl|Hl];
      [|split; reflexivity].
    destruct Hc as [Hc|Hc]; [lia|]. rewrite Hc. split; reflexivity.
Qed.

(** X19: when the service answers with the expected shape, an object whose
    [candidates] is an array whose first element has a [content] whose
    [parts] is an array whose first element has a string [text], the
    suggestions are the lines of that text, trimmed, without the blank ones.
    Other fields of the objects and further elements of the arrays play no
    part. *)
Theorem X19_expected_answer_gives_the_lines `{JsComparison}
        (rawKeywords : string) (moreCandidates moreParts : list Json)
        (f1 f2 f3 f4 : list (string * Json)) :
  let part := JObject (f4 ++ [("text", JString rawKeywords)]) in
  let content := JObject (f3 ++ [("parts", JArray (part :: moreParts))]) in
  let candidate := JObject (f2 ++ [("content", content)]) in
  let result := JObject (f1 ++ [("candidates", JArray (candidate :: moreCandidates))]) in
  keywordsFromResult result = Normal (keywordsOf rawKeywords)
  /\ (forall contentToSendToLLM apiKey,
         50 < JsString.jsLength contentToSendToLLM -> Js.truthy apiKey = true ->
         keywordSuggestionsOf contentToSendToLLM apiKey (Normal result)
         = keywordsOf rawKeywords).
Proof.
  intros part content candidate result.
  assert (Hk : keywordsFromResult result = Normal (keywordsOf rawKeywords)).
  { subst part content candidate result.
    unfold keywordsFromResult, namedOfFirst, getNamed, lengthPositive. simpl.
    repeat (rewrite lookupField_last; simpl). reflexivity. }
  split; [exact Hk|].
  intros c k Hc Hkey. unfold keywordSuggestionsOf.
  apply Nat.ltb_lt in Hc. now rewrite Hc, Hkey, Hk.
Qed.

Lemma splitLines_line (k : string) :
  NodeUrl.string_forallb (fun c => negb (isLineFeed c)) k = true ->
  JsString.splitLines k = [k].
Proof.
  induction k as [|c k IH]; simpl; [reflexivity|].
  intros H. apply andb_true_iff in H. destruct H as [Hc Hk].
  apply negb_true_iff in Hc. unfold isLineFeed in Hc. now rewrite Hc, (IH Hk).
Qed.

Lemma splitLines_first (k rest : string) :
  NodeUrl.string_forallb (fun c => negb (isLineFeed c)) k = true ->
  JsString.splitLines (k ++ String (ascii_of_nat 10) rest) = k :: JsString.splitLines rest.
Proof.
  induction k as [|c k IH]; simpl; [reflexivity|].
  intros H. apply andb_true_iff in H. destruct H as [Hc Hk].
  apply negb_true_iff in Hc. unfold isLineFeed in Hc. now rewrite Hc, (IH Hk).
Qed.

Lemma splitLines_join (ks : list string) :
  ks <> [] ->
  Forall (fun k => NodeUrl.string_forallb (fun c => negb (isLineFeed c)) k = true) ks ->
  JsString.splitLines (joinStrings lineFeed ks) = ks.
Proof.
  induction ks as [|k ks IH]; [contradiction|]. intros _ Hall.
  inversion Hall as [|? ? Hk Hks]; subst.
  destruct ks as [|k' ks].
  - simpl. now apply splitLines_line.
  - change (joinStrings lineFeed (k :: k' :: ks))
      with (k ++ String (ascii_of_nat 10) (joinStrings lineFeed (k' :: ks)))%string.
    rewrite (splitLines_first _ _ Hk). f_equal. apply IH; [discriminate | exact Hks].
Qed.

(** X20: the keywords of a text survive the round trip.  A list of keywords
    that are non-empty, already trimmed and free of line feeds, written one
    per line, is read back as the same list. *)
Theorem X20_keywords_round_trip (ks : list string) :
  Forall (fun k => k <> ""
                   /\ JsString.trim k = k
                   /\ NodeUrl.string_forallb (fun c => negb (isLineFeed c)) k = true) ks ->
  keywordsOf (joinStrings lineFeed ks) = ks.
Proof.
  intros Hall. destruct ks as [|k0 ks0]; [reflexivity|].
  set (ks := k0 :: ks0) in *.
  unfold keywordsOf. rewrite splitLines_join.
  - assert (Hmap : map JsString.trim ks = ks).
    { clear -Hall. induction ks as [|k ks IH]; simpl; [reflexivity|].
      inversion Hall as [|? ? [_ [Ht _]] Hks]; subst. now rewrite Ht, (IH Hks). }
    rewrite Hmap. apply filter_all. intros k Hk.
    rewrite Forall_forall in Hall. destruct (Hall k Hk) as [Hne _].
    apply Nat.ltb_lt. now apply jsLength_positive.
  - discriminate.
  - apply Forall_forall. intros k Hk. rewrite Forall_forall in Hall. now apply Hall.
Qed.

Lemma X20_witness :
  let ks := ["seo audit"; "broken links"; "meta description"] in
  Forall (fun k => k <> ""
                   /\ JsString.trim k = k
                   /\ NodeUrl.string_forallb (fun c => negb (isLineFeed c)) k = true) ks
  /\ keywordsOf (joinStrings lineFeed ks) = ks.
Proof.
  intros ks.
  assert (H : Forall (fun k => k <> ""
                               /\ JsString.trim k = k
                               /\ NodeUrl.string_forallb
                                    (fun c => negb (isLineFeed c)) k = true) ks).
  { repeat constructor; discriminate. }
  split; [exact H|]. apply (X20_keywords_round_trip ks H).
Defined.

(** ** The handler *)

Lemma h1TagsOf_map (h1Texts : list string) : h1TagsOf h1Texts = map JsString.trim h1Texts.
Proof.
  unfold h1TagsOf.
  assert (Hgen : forall acc,
             fold_left (fun h1Tags text => Js.push h1Tags (JsString.trim text)) h1Texts acc
             = acc ++ map JsString.trim h1Texts).
  { induction h1Texts as [|t ts IH]; intros acc; simpl; [now rewrite app_nil_r|].
    rewrite IH. unfold Js.push. now rewrite <- app_assoc. }
  apply Hgen.
Qed.

Lemma allLinks_length_le {U : UrlParser} (parsedUrl : UrlObject) (anchors : list Anchor) :
  length (allLinks (collectLinks parsedUrl anchors)) <= length anchors.
Proof.
  induction anchors as [|el anchors IH] using rev_ind; [simpl; lia|].
  rewrite (collectLinks_snoc parsedUrl anchors el), length_app. simpl.
  unfold eachAnchor.
  destruct (href el) as [rawHref|]; [|lia].
  destruct (rawHref =? ""); [lia|].
  destruct (resolve (baseUrl parsedUrl) rawHref) as [absoluteHref|]; [|lia].
  destruct (parse absoluteHref) as [parsedHref|].
  - destruct (classify parsedHref parsedUrl (Js.or_default (rel el) ""));
      simpl; unfold Js.push; rewrite length_app; simpl; lia.
  - simpl. unfold Js.push. rewrite length_app. simpl. lia.
Qed.

Lemma verifyLinks_length_le (net : string -> NetReply) (allLinks : list string) :
  length (verifyLinks net allLinks) <= length allLinks.
Proof.
  unfold verifyLinks. rewrite collectBroken_flat_map, <- (length_map entryUrl), broken_urls,
    length_map.
  etransitivity; [apply filter_length_le|].
  apply NoDup_incl_length; [apply uniqueLinksToCheck_NoDup|].
  intros y Hy. now apply uniqueLinksToCheck_In.
Qed.

Lemma statusOf_spec (s : Z) :
  (statusOf s = "good" <-> (80 <= s)%Z)
  /\ (statusOf s = "average" <-> (60 <= s < 80)%Z)
  /\ (statusOf s = "bad" <-> (s < 60)%Z).
Proof.
  unfold statusOf.
  destruct (Z.leb_spec 80 s); [|destruct (Z.leb_spec 60 s)];
    repeat split; intros; try discriminate; try reflexivity; lia.
Qed.




(** X22: a page that cannot be fetched is answered with status 500 and one
    of four messages.  The page request accepts the statuses of [200, 300)
    only (and 0); any other final status is a failure, whose message names
    the status when it is 404 or 403 and is the general one otherwise, so a
    page that answers 404 is reported with status 500, not 404.  A failure
    with code ECONNABORTED gets the message about the time taken, even when
    it carries a response. *)
Theorem X22_page_failures `{JsNumbers} (r : Response) (page : Page) (error : JsError) :
  let s := statusCode r in
  (s = 0%Z \/ (200 <= s < 300)%Z -> fetchPage (PageCompleted r page) = Fulfilled page)
  /\ (s <> 0%Z -> ~ (200 <= s < 300)%Z ->
      exists err,
        fetchPage (PageCompleted r page) = Rejected err
        /\ failure err
           = mkHttpReply 500
               (ErrorBody
                  (if (s =? 404)%Z then "The URL returned a 404 Not Found error."
                   else if (s =? 403)%Z then "Access to the URL was denied (403 Forbidden)."
                   else "Failed to analyze website. Some websites block scraping or URL is invalid.")))
  /\ httpStatus (failure error) = 500%Z
  /\ (forall response request message,
         errorMessageOf (AxiosError response request (Some "ECONNABORTED") message)
         = "Website took too long to respond or could not be reached.")
  /\ (forall message,
         errorMessageOf (OtherError message)
         = "Failed to analyze website. Some websites block scraping or URL is invalid.")
  /\ In (errorMessageOf error)
        ["Website took too long to respond or could not be reached.";
         "The URL returned a 404 Not Found error.";
         "Access to the URL was denied (403 Forbidden).";
         "Failed to analyze website. Some websites block scraping or URL is invalid."].
Proof.
  intros s. subst s. split; [|split; [|split; [|split; [|split]]]].
  - intros Hs. unfold fetchPage, defaultValidateStatus. decide_Z; reflexivity.
  - intros H0 Hs. unfold fetchPage, defaultValidateStatus.
    decide_Z; simpl; eexists; (split; [reflexivity|]);
      unfold failure, errorMessageOf, axiosCodeIs, responseStatusIs, codeIs; simpl;
      decide_Z; simpl; decide_Z; reflexivity.
  - reflexivity.
  - reflexivity.
  - reflexivity.
  - unfold errorMessageOf.
    destruct (axiosCodeIs error "ECONNABORTED"); [simpl; auto|].
    destruct (responseStatusIs error 404); [simpl; auto|].
    destruct (responseStatusIs error 403); simpl; auto.
Qed.

(** X23: the report of a successful analysis is consistent.  [totalImages]
    is the length of [imageData] and at most the two image counters
    together, which count the [img] elements of the page; the score is
    between 0 and 100 and the status is ['good'] from 80, ['average'] from
    60 and ['bad'] below; title and description are not empty; there is one
    heading per [h1]; every element of [brokenLinks] is a record whose URL
    is a link collected on the page, and there are no more of them than
    anchors; the schema types are truthy, no keyword suggestion is empty,
    and the issue ['No Title ❌'] is absent. *)
Theorem X23_report_is_consistent `{UrlParser} `{JsComparison} (requested : string)
        (parsedUrl : UrlObject) (world : World) (page : Page) :
  let report := analyzePage requested parsedUrl world page in
  Report.url report = requested
  /\ Report.totalImages report = length (Report.imageData report)
  /\ Report.imagesWithAlt report + Report.imagesWithoutAlt report = length (imgs page)
  /\ Report.totalImages report <= Report.imagesWithAlt report + Report.imagesWithoutAlt report
  /\ (0 <= Report.performanceScore report <= 100)%Z
  /\ (Report.status report = "good" <-> (80 <= Report.performanceScore report)%Z)
  /\ (Report.status report = "bad" <-> (Report.performanceScore report < 60)%Z)
  /\ Report.title report <> ""
  /\ Report.metaDescription report <> ""
  /\ length (Report.h1Tags report) = length (h1Texts page)
  /\ (forall e, In e (Report.brokenLinks report) ->
        exists b, e = Record_ b
                  /\ In (url b) (allLinks (collectLinks parsedUrl (anchors page))))
  /\ length (Report.brokenLinks report) <= length (anchors page)
  /\ Forall (fun v => truthyJson v = true) (Report.schemaData report)
  /\ Forall (fun k => k <> "") (Report.keywordSuggestions report)
  /\ ~ In "No Title ❌" (Report.issues report).
Proof.
  intros report. subst report. unfold analyzePage. cbn [Report.url Report.totalImages
    Report.imageData Report.imagesWithAlt Report.imagesWithoutAlt Report.performanceScore
    Report.status Report.title Report.metaDescription Report.h1Tags Report.brokenLinks
    Report.schemaData Report.keywordSuggestions Report.issues].
  destruct (collectImages_spec (imgs page)) as [Hsum [Hwith Hdata]].
  split; [reflexivity|]. split; [reflexivity|]. split; [exact Hsum|]. split.
  { rewrite Hsum, Hdata, length_map. apply filter_length_le. }
  split; [apply scorePage_range|].
  split; [apply statusOf_spec|]. split; [apply statusOf_spec|].
  split; [apply or_default_nonempty; discriminate|].
  split; [apply or_default_nonempty; discriminate|].
  split; [now rewrite h1TagsOf_map, length_map|].
  split.
  { intros e He. apply verifyLinks_entries in He. destruct He as [b [-> [Hin _]]].
    now exists b. }
  split.
  { etransitivity; [apply verifyLinks_length_le | apply allLinks_length_le]. }
  split.
  { unfold collectSchema.
    assert (Hgen : forall scripts acc,
               Forall (fun v => truthyJson v = true) acc ->
               Forall (fun v => truthyJson v = true) (fold_left eachScript scripts acc)).
    { induction scripts as [|script scripts IH]; intros acc Hacc; simpl; [exact Hacc|].
      apply IH. now apply eachScript_truthy. }
    apply Hgen. constructor. }
  split; [apply keywordSuggestionsOf_nonempty|].
  apply scorePage_never_no_title.
Qed.
